(** * Session authentication of the hospital staff registry (React client)

    A shallow embedding of the client-side session code:
    - [frontend/src/contexts/AuthContext.js]: the session reducer and the
      operations built on it (restore on mount, login, register, logout,
      clearError, getCurrentUser);
    - [frontend/src/services/api.js]: the two axios interceptors;
    - [frontend/src/pages/RegisterPage.js]: form validation and submission.

    Asynchronous functions are cut at their [await]: the part before it
    issues the request and leaves a pending entry behind, the part after it
    runs when the reply lands. Anything may happen in between, which is how
    interleavings such as a logout during a login are expressed. *)

From stdpp Require Import base strings gmap list relations.
From Stdlib Require Import NArith ZArith.

Open Scope string_scope.
Open Scope list_scope.

(** ** JavaScript data *)

Module JS.

(** A form string is its sequence of UTF-16 code units: [length],
    [trim] and the regular expression of the page work on code units. *)
Definition code_unit := N.
Definition jsstring := list code_unit.

(** A literal of ASCII characters as code units. *)
Definition js (s : string) : jsstring :=
  map Ascii.N_of_ascii (String.list_ascii_of_string s).

Definition jsstring_eqb (a b : jsstring) : bool :=
  bool_decide (a = b).

(** ECMAScript WhiteSpace and LineTerminator: what [trim] strips and what
    the class [\s] matches. *)
Definition is_whitespace (c : code_unit) : bool :=
  ((9 <=? c) && (c <=? 13) ||
   (c =? 32) || (c =? 160) || (c =? 5760) ||
   (8192 <=? c) && (c <=? 8202) ||
   (c =? 8232) || (c =? 8233) || (c =? 8239) || (c =? 8287) ||
   (c =? 12288) || (c =? 65279))%N.

Fixpoint trimStart (s : jsstring) : jsstring :=
  match s with
  | c :: s' => if is_whitespace c then trimStart s' else s
  | [] => []
  end.

Definition trim (s : jsstring) : jsstring :=
  rev (trimStart (rev (trimStart s))).

(** Truthiness of a string: only the empty one is falsy. *)
Definition truthy (s : jsstring) : bool :=
  match s with [] => false | _ :: _ => true end.

Definition truthy_str (s : string) : bool :=
  match s with EmptyString => false | String _ _ => true end.

(** Regular expressions, matched by derivatives. *)
Inductive regex : Type :=
| Void
| Eps
| Class (p : code_unit -> bool)
| Cat (r1 r2 : regex)
| Alt (r1 r2 : regex)
| Star (r : regex).

Fixpoint nullable (r : regex) : bool :=
  match r with
  | Void => false
  | Eps => true
  | Class _ => false
  | Cat r1 r2 => nullable r1 && nullable r2
  | Alt r1 r2 => nullable r1 || nullable r2
  | Star _ => true
  end.

Fixpoint deriv (c : code_unit) (r : regex) : regex :=
  match r with
  | Void => Void
  | Eps => Void
  | Class p => if p c then Eps else Void
  | Cat r1 r2 =>
      if nullable r1
      then Alt (Cat (deriv c r1) r2) (deriv c r2)
      else Cat (deriv c r1) r2
  | Alt r1 r2 => Alt (deriv c r1) (deriv c r2)
  | Star r1 => Cat (deriv c r1) (Star r1)
  end.

Fixpoint matches (r : regex) (s : jsstring) : bool :=
  match s with
  | [] => nullable r
  | c :: s' => matches (deriv c r) s'
  end.

Definition Plus (r : regex) : regex := Cat r (Star r).
Definition Chr (c : code_unit) : regex := Class (N.eqb c).
Definition NotSpace : regex := Class (fun c => negb (is_whitespace c)).
Definition Anything : regex := Star (Class (fun _ => true)).

(** [re.test(s)] for a pattern without anchors: some substring matches. *)
Definition test (r : regex) (s : jsstring) : bool :=
  matches (Cat Anything (Cat r Anything)) s.

(** The values an action or a session field can hold. *)
#[warnings="-register-all"]
Inductive value : Type :=
| VUndefined
| VNull
| VBool (b : bool)
| VNumber (n : Z)
| VString (s : string)
| VObject (props : list (string * value))
| VArray (items : list value).

(** Neither [null] nor [undefined]. *)
Definition is_set (v : value) : bool :=
  match v with
  | VUndefined | VNull => false
  | _ => true
  end.

(** Truthiness: [undefined], [null], [false], [0] and the empty string
    are falsy, everything else (objects and arrays included) is truthy. *)
Definition truthy_value (v : value) : bool :=
  match v with
  | VUndefined | VNull => false
  | VBool b => b
  | VNumber n => negb (n =? 0)%Z
  | VString s => truthy_str s
  | VObject _ | VArray _ => true
  end.

(** [x || d] *)
Definition or_else (x d : value) : value :=
  if truthy_value x then x else d.

Fixpoint lookup_prop (k : string) (props : list (string * value)) : value :=
  match props with
  | [] => VUndefined
  | (k', v) :: rest => if String.eqb k k' then v else lookup_prop k rest
  end.

(** What can be thrown: a [TypeError] of the language, or the error axios
    rejects a request with. [response] is absent when no reply was received
    (transport failure); [detail] is [response.data?.detail], whatever
    the server put there: a string, the array of a validation failure,
    or [undefined] when there is none. *)
Record ErrorResponse : Type := mkErrorResponse {
  status : Z;
  detail : value
}.

Inductive Exception : Type :=
| TypeError
| AxiosError (response : option ErrorResponse).

(** [error.response] *)
Definition response_of (error : Exception) : option ErrorResponse :=
  match error with
  | AxiosError r => r
  | TypeError => None
  end.

(** What a function body ends in: a value, or an exception. *)
Inductive Completion (A : Type) : Type :=
| Normal (a : A)
| Throw (e : Exception).
Arguments Normal {A} a.
Arguments Throw {A} e.

Definition andThen {A B} (c : Completion A) (k : A -> Completion B) : Completion B :=
  match c with
  | Normal a => k a
  | Throw e => Throw e
  end.

(** [v.k]: a [TypeError] on [null] and [undefined], [undefined] on the
    other primitives. *)
Definition get (v : value) (k : string) : Completion value :=
  match v with
  | VUndefined | VNull => Throw TypeError
  | VObject props => Normal (lookup_prop k props)
  | _ => Normal VUndefined
  end.

End JS.

Import JS.

(** ** What a regular expression means *)

Module RegExp.

(** The strings a pattern matches in full. *)
Inductive denotes : regex -> jsstring -> Prop :=
| denotes_Eps : denotes Eps []
| denotes_Class p c : p c = true -> denotes (Class p) [c]
| denotes_Cat r1 r2 s1 s2 :
    denotes r1 s1 -> denotes r2 s2 -> denotes (Cat r1 r2) (s1 ++ s2)
| denotes_Alt_l r1 r2 s : denotes r1 s -> denotes (Alt r1 r2) s
| denotes_Alt_r r1 r2 s : denotes r2 s -> denotes (Alt r1 r2) s
| denotes_Star_nil r : denotes (Star r) []
| denotes_Star_cons r s1 s2 :
    denotes r s1 -> denotes (Star r) s2 -> denotes (Star r) (s1 ++ s2).

(** A run of characters that are not white space. *)
Definition solid (s : jsstring) : Prop :=
  s <> [] /\ forallb (fun c => negb (is_whitespace c)) s = true.

End RegExp.

(** ** The object RegisterPage hands to [register] *)

Module Form.

Record FormData : Type := mkFormData {
  nome : jsstring;
  email : jsstring;
  password : jsstring;
  confirm_password : jsstring;
  role : jsstring;
  crm : jsstring;
  especialidade : jsstring
}.

End Form.

(** ** services/api.js: the request pipeline *)

Module api.

(** What the verifier sends back. *)
Record User : Type := mkUser {
  nome : string;
  email : string;
  role : string;
  crm : option string;
  especialidade : option string
}.

Definition optional (o : option string) : value :=
  match o with
  | Some s => VString s
  | None => VNull
  end.

(** The principal as the object the session holds. *)
Definition user_value (u : User) : value :=
  VObject [("nome", VString (nome u)); ("email", VString (email u));
           ("role", VString (role u)); ("crm", optional (crm u));
           ("especialidade", optional (especialidade u))].

(** [response.data] of [POST /auth/login]. *)
Record LoginData : Type := mkLoginData {
  access_token : string;
  user : User
}.

(** The outcome of an awaited request. *)
Inductive Reply (A : Type) : Type :=
| Resolved (data : A)
| Rejected (error : Exception).
Arguments Resolved {A} data.
Arguments Rejected {A} error.

Inductive Instance : Type := authAPI | hospitalAPI.

(** What a request carries as its body: nothing, the two fields of a
    login, or the object handed to [register]. *)
Inductive Body : Type :=
| no_data
| login_data (email password : jsstring)
| register_data (userData : Form.FormData).

Record Request : Type := mkRequest {
  instance : Instance;
  method : string;
  url : string;
  Authorization : option string;
  data : Body
}.

(** Everything this module reads and writes outside itself: the
    [hospital_token] slot of [localStorage], the default [Authorization]
    header of [authAPI], [window.location], and the wire. *)
Record Client : Type := mkClient {
  hospital_token : option string;
  authAPI_Authorization : option string;
  pathname : string;
  href_assigned : list string;
  sent : list Request
}.

Definition setItem (token : string) (c : Client) : Client :=
  mkClient (Some token) (authAPI_Authorization c) (pathname c)
           (href_assigned c) (sent c).

Definition removeItem (c : Client) : Client :=
  mkClient None (authAPI_Authorization c) (pathname c)
           (href_assigned c) (sent c).

Definition set_Authorization (h : option string) (c : Client) : Client :=
  mkClient (hospital_token c) h (pathname c) (href_assigned c) (sent c).

Definition assign_href (target : string) (c : Client) : Client :=
  mkClient (hospital_token c) (authAPI_Authorization c) (pathname c)
           (target :: href_assigned c) (sent c).

(** A change of route inside the application ([Link], the router):
    the path changes, the page is not loaded again. *)
Definition navigate (path : string) (c : Client) : Client :=
  mkClient (hospital_token c) (authAPI_Authorization c) path
           (href_assigned c) (sent c).

Definition Bearer (token : string) : string := "Bearer " +:+ token.

(** [addAuthInterceptor]: the stored token, when there is one, becomes
    the bearer credential of the request. *)
Definition addAuthInterceptor (c : Client) (config_Authorization : option string)
  : option string :=
  match hospital_token c with
  | Some token =>
      if truthy_str token then Some (Bearer token) else config_Authorization
  | None => config_Authorization
  end.

(** Only [authAPI] is ever given a default header. *)
Definition defaults_Authorization (i : Instance) (c : Client) : option string :=
  match i with
  | authAPI => authAPI_Authorization c
  | hospitalAPI => None
  end.

(** A request leaves with the instance's defaults, passed through the
    request interceptor. *)
Definition dispatchRequest (i : Instance) (m u : string) (d : Body) (c : Client)
  : Client :=
  mkClient (hospital_token c) (authAPI_Authorization c) (pathname c)
           (href_assigned c)
           (mkRequest i m u (addAuthInterceptor c (defaults_Authorization i c)) d
              :: sent c).

(** [error.response?.status === 401] *)
Definition is_401 (error : Exception) : bool :=
  match response_of error with
  | Some r => (status r =? 401)%Z
  | None => false
  end.

(** [addResponseInterceptor], rejected side. The error itself is passed
    on unchanged ([return Promise.reject(error)]). *)
Definition addResponseInterceptor (error : Exception) (c : Client) : Client :=
  if is_401 error then
    let c1 := removeItem c in
    if negb (String.eqb (pathname c1) "/login")
    then assign_href "/login" c1
    else c1
  else c.

(** [handleAPIError]: a reply from the server gives its detail or a
    fixed text, no reply a second text, anything else a third. *)
Definition handleAPIError (error : Exception) : value :=
  match error with
  | AxiosError (Some r) => or_else (detail r) (VString "Erro no servidor")
  | AxiosError None => VString "Erro de conexão com o servidor"
  | TypeError => VString "Erro inesperado"
  end.

End api.

(** ** contexts/AuthContext.js: the session *)

Module AuthContext.

Import api.

Record State : Type := mkState {
  user : value;
  token : value;
  isAuthenticated : bool;
  loading : value;
  error : value
}.

Definition initialState : State :=
  mkState VNull VNull false (VBool true) VNull.

(** [AUTH_ACTIONS] *)
Definition LOGIN_START : string := "LOGIN_START".
Definition LOGIN_SUCCESS : string := "LOGIN_SUCCESS".
Definition LOGIN_FAILURE : string := "LOGIN_FAILURE".
Definition LOGOUT : string := "LOGOUT".
Definition SET_LOADING : string := "SET_LOADING".
Definition CLEAR_ERROR : string := "CLEAR_ERROR".
Definition UPDATE_USER : string := "UPDATE_USER".

Definition AUTH_ACTIONS : list string :=
  [LOGIN_START; LOGIN_SUCCESS; LOGIN_FAILURE; LOGOUT; SET_LOADING;
   CLEAR_ERROR; UPDATE_USER].

Record Action : Type := mkAction {
  type : value;
  payload : value
}.

(** [action.type === t], strict: only a string equals a string. *)
Definition type_is (action : Action) (t : string) : bool :=
  match type action with
  | VString s => String.eqb s t
  | _ => false
  end.

(** The reducer. Each case spreads [state] and overwrites the fields it
    names. [LOGIN_SUCCESS] reads two properties of its payload, which
    throws when the payload is [null] or [undefined]. *)
Definition authReducer (state : State) (action : Action) : Completion State :=
  if type_is action LOGIN_START then
    Normal (mkState (user state) (token state) (isAuthenticated state)
              (VBool true) VNull)
  else if type_is action LOGIN_SUCCESS then
    andThen (get (payload action) "user") (fun payload_user =>
    andThen (get (payload action) "token") (fun payload_token =>
    Normal (mkState payload_user payload_token true (VBool false) VNull)))
  else if type_is action LOGIN_FAILURE then
    Normal (mkState VNull VNull false (VBool false) (payload action))
  else if type_is action LOGOUT then
    Normal (mkState VNull VNull false (VBool false) VNull)
  else if type_is action SET_LOADING then
    Normal (mkState (user state) (token state) (isAuthenticated state)
              (payload action) (error state))
  else if type_is action CLEAR_ERROR then
    Normal (mkState (user state) (token state) (isAuthenticated state)
              (loading state) VNull)
  else if type_is action UPDATE_USER then
    Normal (mkState (payload action) (token state) (isAuthenticated state)
              (loading state) (error state))
  else
    Normal state.

(** The calls that have been sent and not yet answered, each with what
    its continuation captured. *)
Inductive Pending : Type :=
| me_of_loadStoredAuth (token : string)
| post_of_login (awaited_by_register : bool)
| post_of_register (userData : Form.FormData)
| me_of_getCurrentUser
| get_of_hospitalService.

Record World : Type := mkWorld {
  client : Client;
  session : State;
  inflight : list Pending
}.

(** Code that runs to completion on the world: it leaves a world behind
    and either returns or throws. What was written before a throw stays
    written. *)
Definition Js (A : Type) : Type := World -> World * Completion A.

Definition ret {A} (a : A) : Js A := fun w => (w, Normal a).

Definition throw {A} (e : Exception) : Js A := fun w => (w, Throw e).

Definition bind {A B} (m : Js A) (k : A -> Js B) : Js B :=
  fun w =>
    match m w with
    | (w', Normal a) => k a w'
    | (w', Throw e) => (w', Throw e)
    end.

Definition try_catch {A} (body : Js A) (handler : Exception -> Js A) : Js A :=
  fun w =>
    match body w with
    | (w', Normal a) => (w', Normal a)
    | (w', Throw e) => handler e w'
    end.

Declare Scope js_scope.
Delimit Scope js_scope with js.
Notation "x <- c1 ;; c2" := (bind c1 (fun x => c2))
  (at level 100, c1 at next level, c2 at level 200, right associativity) : js_scope.
Notation "c1 ;; c2" := (bind c1 (fun _ => c2))
  (at level 100, c2 at level 200, right associativity) : js_scope.
Open Scope js_scope.

Definition exec {A} (m : Js A) (w : World) : World := fst (m w).
Definition result {A} (m : Js A) (w : World) : Completion A := snd (m w).

Definition on_client (f : Client -> Client) : Js unit :=
  fun w => (mkWorld (f (client w)) (session w) (inflight w), Normal tt).

Definition getItem : Js (option string) :=
  fun w => (w, Normal (hospital_token (client w))).

(** [dispatch(action)]: the reducer runs on the current state. *)
Definition dispatch (action : Action) : Js unit :=
  fun w =>
    match authReducer (session w) action with
    | Normal s => (mkWorld (client w) s (inflight w), Normal tt)
    | Throw e => (w, Throw e)
    end.

(** A request goes out and the caller suspends on it. *)
Definition send (i : Instance) (m u : string) (d : Body) (p : Pending) : Js unit :=
  fun w =>
    (mkWorld (dispatchRequest i m u d (client w)) (session w) (p :: inflight w),
     Normal tt).

(** The reply lands: a rejection passes the response interceptor and is
    then thrown into the awaiting function. *)
Definition settle {A} (reply : Reply A) : Js A :=
  match reply with
  | Resolved data => ret data
  | Rejected error => on_client (addResponseInterceptor error) ;; throw error
  end.

(** [error.response?.data?.detail] *)
Definition detail_of (error : Exception) : value :=
  match response_of error with
  | Some r => detail r
  | None => VUndefined
  end.

(** The stored token when it is truthy. *)
Definition if_truthy (o : option string) : option string :=
  match o with
  | Some s => if truthy_str s then Some s else None
  | None => None
  end.

(** What [login] and [register] return: [{ success, error }]. *)
Record Result : Type := mkResult {
  success : bool;
  result_error : option value
}.

Definition action (t : string) (p : value) : Action := mkAction (VString t) p.

Definition credentials (u t : value) : value :=
  VObject [("user", u); ("token", t)].

(** *** [loadStoredAuth], run once when the provider mounts *)

Definition loadStoredAuth_catch (error : Exception) : Js unit :=
  on_client removeItem ;;
  on_client (set_Authorization None) ;;
  dispatch (action SET_LOADING (VBool false)).

Definition loadStoredAuth_start : Js unit :=
  try_catch
    (stored <- getItem ;;
     match if_truthy stored with
     | Some token =>
         on_client (set_Authorization (Some (Bearer token))) ;;
         send authAPI "GET" "/auth/me" no_data (me_of_loadStoredAuth token)
     | None => dispatch (action SET_LOADING (VBool false))
     end)
    loadStoredAuth_catch.

Definition loadStoredAuth_resume (token : string) (reply : Reply User) : Js unit :=
  try_catch
    (response_data <- settle reply ;;
     dispatch (action LOGIN_SUCCESS
                 (credentials (user_value response_data) (VString token))))
    loadStoredAuth_catch.

(** *** [login] *)

Definition login_catch (error : Exception) : Js Result :=
  let errorMessage := or_else (detail_of error) (VString "Erro ao fazer login") in
  dispatch (action LOGIN_FAILURE errorMessage) ;;
  ret (mkResult false (Some errorMessage)).

(** Up to the [await]; [None] says the function is suspended there. *)
Definition login_start (email password : jsstring) (awaited_by_register : bool)
  : Js (option Result) :=
  try_catch
    (dispatch (action LOGIN_START VUndefined) ;;
     send authAPI "POST" "/auth/login" (login_data email password)
       (post_of_login awaited_by_register) ;;
     ret None)
    (fun error => r <- login_catch error ;; ret (Some r)).

Definition login_resume (reply : Reply LoginData) : Js Result :=
  try_catch
    (response_data <- settle reply ;;
     on_client (setItem (access_token response_data)) ;;
     on_client (set_Authorization (Some (Bearer (access_token response_data)))) ;;
     dispatch (action LOGIN_SUCCESS
                 (credentials (user_value (api.user response_data))
                              (VString (access_token response_data)))) ;;
     ret (mkResult true None))
    login_catch.

(** *** [register] *)

Definition register_catch (error : Exception) : Js Result :=
  let errorMessage :=
    or_else (detail_of error) (VString "Erro ao cadastrar usuário") in
  dispatch (action LOGIN_FAILURE errorMessage) ;;
  ret (mkResult false (Some errorMessage)).

(** After the automatic login has returned. *)
Definition register_return (loginResult : Result) : Result :=
  if success loginResult
  then mkResult true None
  else mkResult false
         (Some (VString "Cadastro realizado, mas falha no login automático")).

Definition register_start (userData : Form.FormData) : Js (option Result) :=
  try_catch
    (dispatch (action LOGIN_START VUndefined) ;;
     send authAPI "POST" "/auth/register" (register_data userData)
       (post_of_register userData) ;;
     ret None)
    (fun error => r <- register_catch error ;; ret (Some r)).

(** The registration reply lands; on success [login] is entered and
    [register] suspends again, on the login request. *)
Definition register_resume (userData : Form.FormData) (reply : Reply unit)
  : Js (option Result) :=
  try_catch
    (_ <- settle reply ;;
     loginResult <- login_start (Form.email userData) (Form.password userData) true ;;
     ret (option_map register_return loginResult))
    (fun error => r <- register_catch error ;; ret (Some r)).

(** The login reply lands inside [register]. *)
Definition register_login_resume (reply : Reply LoginData) : Js Result :=
  try_catch
    (loginResult <- login_resume reply ;;
     ret (register_return loginResult))
    register_catch.

(** *** [logout], [clearError], [getCurrentUser] *)

Definition logout : Js unit :=
  on_client removeItem ;;
  on_client (set_Authorization None) ;;
  dispatch (action LOGOUT VUndefined).

Definition clearError : Js unit :=
  dispatch (action CLEAR_ERROR VUndefined).

Definition getCurrentUser_start : Js unit :=
  try_catch
    (send authAPI "GET" "/auth/me" no_data me_of_getCurrentUser)
    (fun _ => ret tt).

(** Returns [response.data], or [null] after a failure. *)
Definition getCurrentUser_resume (reply : Reply User) : Js (option User) :=
  try_catch
    (response_data <- settle reply ;;
     dispatch (action UPDATE_USER (user_value response_data)) ;;
     ret (Some response_data))
    (fun _ => ret None).

(** *** Calls of [hospitalService] (the dashboard's list of doctors) *)

Definition hospitalService_start (u : string) : Js unit :=
  send hospitalAPI "GET" u no_data get_of_hospitalService.

Definition hospitalService_resume (reply : Reply unit) : Js unit :=
  settle reply.

(** *** Running the operations in sequence, without interleaving *)

(** The reply to the request sent last is taken off the list. *)
Definition reply_arrives : Js unit :=
  fun w => (mkWorld (client w) (session w) (tail (inflight w)), Normal tt).

Definition login (email password : jsstring) (reply : Reply LoginData) : Js Result :=
  started <- login_start email password false ;;
  match started with
  | Some r => ret r
  | None => reply_arrives ;; login_resume reply
  end.

Definition loadStoredAuth (reply : Reply User) : Js unit :=
  stored <- getItem ;;
  loadStoredAuth_start ;;
  match if_truthy stored with
  | Some token => reply_arrives ;; loadStoredAuth_resume token reply
  | None => ret tt
  end.

Definition register (userData : Form.FormData) (reply : Reply unit)
  (login_reply : Reply LoginData) : Js Result :=
  started <- register_start userData ;;
  match started with
  | Some r => ret r
  | None =>
      reply_arrives ;;
      resumed <- register_resume userData reply ;;
      match resumed with
      | Some r => ret r
      | None => reply_arrives ;; register_login_resume login_reply
      end
  end.

Definition getCurrentUser (reply : Reply User) : Js (option User) :=
  getCurrentUser_start ;;
  reply_arrives ;;
  getCurrentUser_resume reply.

(** *** The client as a transition system

    The user and the pages call the operations, the router changes the
    path, replies land in any order, and an assignment to
    [window.location.href] makes the browser load the page afresh. *)

(** The world once the reply to the pending call between [before] and
    [after] has been taken off the list. *)
Definition answered (before after : list Pending) (w : World) : World :=
  mkWorld (client w) (session w) (before ++ after).

(** A freshly loaded page: whatever an earlier visit left in the store,
    no default header, the initial session, and [loadStoredAuth] started
    by the mount effect. *)
Definition boot (stored : option string) (path : string) : World :=
  exec loadStoredAuth_start
    (mkWorld (mkClient stored None path [] []) initialState []).

Inductive step : World -> World -> Prop :=
| step_navigate w path :
    step w (exec (on_client (navigate path)) w)
| step_load w target earlier :
    href_assigned (client w) = target :: earlier ->
    step w (boot (hospital_token (client w)) target)
| step_login w email password :
    step w (exec (login_start email password false) w)
| step_register w userData :
    step w (exec (register_start userData) w)
| step_logout w :
    step w (exec logout w)
| step_clearError w :
    step w (exec clearError w)
| step_getCurrentUser w :
    step w (exec getCurrentUser_start w)
| step_hospitalService w u :
    step w (exec (hospitalService_start u) w)
| settle_loadStoredAuth w before after token reply :
    inflight w = before ++ me_of_loadStoredAuth token :: after ->
    step w (exec (loadStoredAuth_resume token reply) (answered before after w))
| settle_login w before after reply :
    inflight w = before ++ post_of_login false :: after ->
    step w (exec (login_resume reply) (answered before after w))
| settle_register w before after userData reply :
    inflight w = before ++ post_of_register userData :: after ->
    step w (exec (register_resume userData reply) (answered before after w))
| settle_register_login w before after reply :
    inflight w = before ++ post_of_login true :: after ->
    step w (exec (register_login_resume reply) (answered before after w))
| settle_getCurrentUser w before after reply :
    inflight w = before ++ me_of_getCurrentUser :: after ->
    step w (exec (getCurrentUser_resume reply) (answered before after w))
| settle_hospitalService w before after reply :
    inflight w = before ++ get_of_hospitalService :: after ->
    step w (exec (hospitalService_resume reply) (answered before after w)).

Definition reachable (w : World) : Prop :=
  exists stored path, rtc step (boot stored path) w.

(** What the session keeps in step: a token exactly when authenticated,
    and then a user too. *)
Definition consistent (s : State) : Prop :=
  (is_set (token s) = true <-> isAuthenticated s = true) /\
  (isAuthenticated s = true -> is_set (user s) = true).

(** What the pages can count on when they read the flags: [loading] is
    a boolean, and [error] is [null] or something truthy. *)
Definition well_typed (s : State) : Prop :=
  (exists b, loading s = VBool b) /\
  (error s = VNull \/ truthy_value (error s) = true).

End AuthContext.

(** ** pages/RegisterPage.js: the registration form *)

Module RegisterPage.

Import Form.
Import AuthContext.

(** The [name] of an input of the form. *)
Inductive Field : Type :=
| f_nome | f_email | f_password | f_confirm_password | f_role | f_crm
| f_especialidade.

Definition name_of (f : Field) : string :=
  match f with
  | f_nome => "nome"
  | f_email => "email"
  | f_password => "password"
  | f_confirm_password => "confirm_password"
  | f_role => "role"
  | f_crm => "crm"
  | f_especialidade => "especialidade"
  end.

(** [{ ...prev, [name]: value }] *)
Definition set_field (f : Field) (v : jsstring) (d : FormData) : FormData :=
  match f with
  | f_nome =>
      mkFormData v (email d) (password d) (confirm_password d) (role d) (crm d)
        (especialidade d)
  | f_email =>
      mkFormData (nome d) v (password d) (confirm_password d) (role d) (crm d)
        (especialidade d)
  | f_password =>
      mkFormData (nome d) (email d) v (confirm_password d) (role d) (crm d)
        (especialidade d)
  | f_confirm_password =>
      mkFormData (nome d) (email d) (password d) v (role d) (crm d)
        (especialidade d)
  | f_role =>
      mkFormData (nome d) (email d) (password d) (confirm_password d) v (crm d)
        (especialidade d)
  | f_crm =>
      mkFormData (nome d) (email d) (password d) (confirm_password d) (role d) v
        (especialidade d)
  | f_especialidade =>
      mkFormData (nome d) (email d) (password d) (confirm_password d) (role d)
        (crm d) v
  end.

(** The state of the component. An entry of [validationErrors] is a
    message, or [null] once the field has been edited again. *)
Record Component : Type := mkComponent {
  formData : FormData;
  isSubmitting : bool;
  validationErrors : gmap string (option string)
}.

Definition initial : Component :=
  mkComponent (mkFormData [] [] [] [] (js "doctor") [] []) false ∅.

Definition handleChange (name : Field) (v : jsstring) (p : Component) : Component :=
  mkComponent (set_field name v (formData p)) (isSubmitting p)
    (match validationErrors p !! name_of name with
     | Some (Some message) =>
         if truthy_str message
         then <[name_of name := None]> (validationErrors p)
         else validationErrors p
     | _ => validationErrors p
     end).

(** [/\S+@\S+\.\S+/] *)
Definition email_pattern : regex :=
  Cat (Plus NotSpace)
    (Cat (Chr 64%N) (Cat (Plus NotSpace) (Cat (Chr 46%N) (Plus NotSpace)))).

Definition check_nome (d : FormData) (errors : gmap string (option string))
  : gmap string (option string) :=
  if negb (truthy (trim (nome d)))
  then <["nome" := Some "Nome é obrigatório"]> errors
  else errors.

Definition check_email (d : FormData) (errors : gmap string (option string))
  : gmap string (option string) :=
  if negb (truthy (trim (email d)))
  then <["email" := Some "Email é obrigatório"]> errors
  else if negb (test email_pattern (email d))
  then <["email" := Some "Email inválido"]> errors
  else errors.

Definition check_password (d : FormData) (errors : gmap string (option string))
  : gmap string (option string) :=
  if negb (truthy (password d))
  then <["password" := Some "Senha é obrigatória"]> errors
  else if (length (password d) <? 6)%nat
  then <["password" := Some "Senha deve ter pelo menos 6 caracteres"]> errors
  else errors.

Definition check_confirm_password (d : FormData)
  (errors : gmap string (option string)) : gmap string (option string) :=
  if negb (truthy (confirm_password d))
  then <["confirm_password" := Some "Confirmação de senha é obrigatória"]> errors
  else if negb (jsstring_eqb (password d) (confirm_password d))
  then <["confirm_password" := Some "Senhas não coincidem"]> errors
  else errors.

Definition check_doctor (d : FormData) (errors : gmap string (option string))
  : gmap string (option string) :=
  if jsstring_eqb (role d) (js "doctor") then
    let errors1 :=
      if negb (truthy (trim (crm d)))
      then <["crm" := Some "CRM é obrigatório para médicos"]> errors
      else errors in
    if negb (truthy (trim (especialidade d)))
    then <["especialidade" := Some "Especialidade é obrigatória para médicos"]> errors1
    else errors1
  else errors.

(** The [errors] object [validateForm] builds, check after check. *)
Definition errors_of (d : FormData) : gmap string (option string) :=
  check_doctor d
    (check_confirm_password d (check_password d (check_email d (check_nome d ∅)))).

(** [validateForm]: stores the errors and says whether there are none
    ([Object.keys(errors).length === 0]). *)
Definition validateForm (p : Component) : Component * bool :=
  let errors := errors_of (formData p) in
  (mkComponent (formData p) (isSubmitting p) errors, (size errors =? 0)%nat).

Definition setIsSubmitting (b : bool) (p : Component) : Component :=
  mkComponent (formData p) b (validationErrors p).

(** [handleSubmit] up to its [await]: the only thing it does to the
    world is to call [register]. *)
Definition handleSubmit (p : Component) (w : World) : Component * World :=
  if isSubmitting p then (p, w)
  else
    let '(p1, valid) := validateForm p in
    if negb valid then (p1, w)
    else (setIsSubmitting true p1, exec (register_start (formData p)) w).

(** ... and its [finally], once [register] has returned. *)
Definition handleSubmit_finally (p : Component) : Component :=
  setIsSubmitting false p.

(** The page as a transition system. Every input carries
    [disabled={isSubmitting}], so the form cannot be edited while a
    submission is under way. *)
Inductive page_step : Component -> Component -> Prop :=
| page_change p name v :
    isSubmitting p = false ->
    page_step p (handleChange name v p)
| page_submit p w :
    page_step p (fst (handleSubmit p w))
| page_settled p :
    isSubmitting p = true ->
    page_step p (handleSubmit_finally p).

Definition rendered (p : Component) : Prop := rtc page_step initial p.

(** [formData[name]] *)
Definition field (f : Field) (d : FormData) : jsstring :=
  match f with
  | f_nome => nome d
  | f_email => email d
  | f_password => password d
  | f_confirm_password => confirm_password d
  | f_role => role d
  | f_crm => crm d
  | f_especialidade => especialidade d
  end.

(** [isFormValid], as the submit button takes it
    ([disabled={!isFormValid || isSubmitting}]). *)
Definition isFormValid (p : Component) : bool :=
  truthy (nome (formData p)) && truthy (email (formData p)) &&
  truthy (password (formData p)) && truthy (confirm_password (formData p)) &&
  (negb (jsstring_eqb (role (formData p)) (js "doctor")) ||
   truthy (crm (formData p)) && truthy (especialidade (formData p))).

End RegisterPage.

(** ** pages/LoginPage.js: the login form *)

Module LoginPage.

Import AuthContext.

Record FormData : Type := mkFormData {
  email : jsstring;
  password : jsstring
}.

Inductive Field : Type := f_email | f_password.

Record Component : Type := mkComponent {
  formData : FormData;
  isSubmitting : bool
}.

Definition initial : Component := mkComponent (mkFormData [] []) false.

Definition handleChange (name : Field) (v : jsstring) (p : Component) : Component :=
  mkComponent
    (match name with
     | f_email => mkFormData v (password (formData p))
     | f_password => mkFormData (email (formData p)) v
     end)
    (isSubmitting p).

(** [handleSubmit] up to its [await]: no check of the fields, [login] is
    called with whatever they hold. *)
Definition handleSubmit (p : Component) (w : World) : Component * World :=
  if isSubmitting p then (p, w)
  else
    (mkComponent (formData p) true,
     exec (login_start (email (formData p)) (password (formData p)) false) w).

Definition handleSubmit_finally (p : Component) : Component :=
  mkComponent (formData p) false.

Definition isFormValid (p : Component) : bool :=
  truthy (email (formData p)) && truthy (password (formData p)).

End LoginPage.

(** ** Sample runs *)

Module Scenario.

Import api AuthContext.

Definition ana : User :=
  mkUser "Ana Souza" "a@h.com" "doctor" (Some "12345-SP") (Some "Cardiologia").

Definition accepted : LoginData := mkLoginData "tok" ana.

Definition unauthorized : Exception :=
  AxiosError
    (Some (mkErrorResponse 401 (VString "Could not validate credentials"))).

(** The reply to a request the server could not parse: the detail is a
    list of what is wrong. *)
Definition unprocessable : Exception :=
  AxiosError
    (Some (mkErrorResponse 422
             (VArray [VObject [("msg", VString "value is not a valid email address")]]))).

Definition a_h_com : jsstring := js "a@h.com".
Definition secret123 : jsstring := js "secret123".

(** The login page is opened with an empty store, and the user logs in. *)
Definition at_login : World := boot None "/login".

Definition login_sent : World :=
  exec (login_start a_h_com secret123 false) at_login.

Definition logged_in : World :=
  exec (login_resume (Resolved accepted)) (answered [] [] login_sent).

(** A refresh of the user is in flight when the user logs out; its reply
    lands afterwards. *)
Definition refresh_sent : World := exec getCurrentUser_start logged_in.

Definition logged_out_meanwhile : World := exec logout refresh_sent.

Definition refresh_landed : World :=
  exec (getCurrentUser_resume (Resolved ana)) (answered [] [] logged_out_meanwhile).

(** The user logs out before the login reply is there; it lands
    afterwards. *)
Definition logout_before_reply : World := exec logout login_sent.

Definition stale_reply_landed : World :=
  exec (login_resume (Resolved accepted)) (answered [] [] logout_before_reply).

(** The dashboard asks for the doctors; the user is back on the login
    page when the reply lands. *)
Definition on_dashboard : World := exec (on_client (navigate "/dashboard")) logged_in.

Definition doctors_sent : World :=
  exec (hospitalService_start "/medicos?skip=0&limit=100") on_dashboard.

Definition back_on_login : World := exec (on_client (navigate "/login")) doctors_sent.

(** A page that loads with a token of an earlier visit; the user logs
    in while [/auth/me] is still out, and is logged in when it fails. *)
Definition restoring : World := boot (Some "stale") "/login".

Definition login_sent_while_restoring : World :=
  exec (login_start a_h_com secret123 false) restoring.

Definition logged_in_while_restoring : World :=
  exec (login_resume (Resolved accepted))
    (answered [] [me_of_loadStoredAuth "stale"] login_sent_while_restoring).

(** A registration of a doctor with no CRM. *)
Definition doctor_without_crm : Form.FormData :=
  Form.mkFormData (js "Ana Souza") a_h_com secret123 secret123 (js "doctor") []
    (js "Cardiology").

Definition at_register : World := boot None "/register".

(** A registration that has everything it needs. *)
Definition nurse : Form.FormData :=
  Form.mkFormData (js "Ana Souza") a_h_com secret123 secret123 (js "nurse") [] [].

End Scenario.

(** * Properties *)

Import api AuthContext.

(** ** The model on small inputs *)

Example trim_strips_both_ends : trim (js "  12345-SP ") = js "12345-SP".
Proof. reflexivity. Qed.

Example trim_of_blanks : trim (9 :: 160 :: 8232 :: js "  ")%N = [].
Proof. reflexivity. Qed.

Example email_pattern_accepts :
  map (test RegisterPage.email_pattern)
    [js "a@h.com"; js "see a@h.com please"; js "a@b@c.d"]
  = [true; true; true].
Proof. reflexivity. Qed.

Example email_pattern_rejects :
  map (test RegisterPage.email_pattern)
    [js "a@h"; js "@h.com"; js "a@.com"; js "a@h."; js "a @h.com"; js "a@h .com"]
  = [false; false; false; false; false; false].
Proof. reflexivity. Qed.

(** A wrong password on the login page: the verifier's reason becomes the
    error of the session. The 401 also empties the store; being on
    [/login] already, nothing is assigned to [location.href]. *)
Example login_with_wrong_password :
  login Scenario.a_h_com (js "wrong")
    (Rejected
       (AxiosError (Some (mkErrorResponse 401 (VString "Invalid credentials")))))
    Scenario.at_login
  = (mkWorld
       (mkClient None None "/login" []
          [mkRequest authAPI "POST" "/auth/login" None
             (login_data Scenario.a_h_com (js "wrong"))])
       (mkState VNull VNull false (VBool false) (VString "Invalid credentials"))
       [],
     Normal (mkResult false (Some (VString "Invalid credentials")))).
Proof. reflexivity. Qed.

(** A login the server could not parse: the list it sends as detail is
    what ends up as the error of the session, and what is returned. *)
Example login_with_unparsable_input :
  (session (exec (login (js "a") (js "b") (Rejected Scenario.unprocessable))
              Scenario.at_login),
   result (login (js "a") (js "b") (Rejected Scenario.unprocessable))
     Scenario.at_login)
  = (mkState VNull VNull false (VBool false)
       (VArray [VObject [("msg", VString "value is not a valid email address")]]),
     Normal
       (mkResult false
          (Some (VArray
                   [VObject [("msg", VString "value is not a valid email address")]])))).
Proof. reflexivity. Qed.

(** After a login, requests of both instances carry the token. *)
Example requests_after_login :
  map Authorization
    (sent (client (exec (hospitalService_start "/medicos?skip=0&limit=100")
                     (exec getCurrentUser_start Scenario.logged_in))))
  = [Some "Bearer tok"; Some "Bearer tok"; None].
Proof. reflexivity. Qed.

(** The fresh form is a doctor's form with everything to fill in. *)
Example errors_of_the_empty_form :
  dom (RegisterPage.errors_of (RegisterPage.formData RegisterPage.initial))
  = {["nome"; "email"; "password"; "confirm_password"; "crm"; "especialidade"]}.
Proof. vm_compute. reflexivity. Qed.

(** ** The reducer *)

Section Reducer.

Variable state : State.

Lemma reduce_LOGIN_START p :
  authReducer state (action LOGIN_START p)
  = Normal (mkState (user state) (token state) (isAuthenticated state)
              (VBool true) VNull).
Proof. reflexivity. Qed.

Lemma reduce_LOGIN_SUCCESS u t :
  authReducer state (action LOGIN_SUCCESS (credentials u t))
  = Normal (mkState u t true (VBool false) VNull).
Proof. reflexivity. Qed.

Lemma reduce_LOGIN_FAILURE p :
  authReducer state (action LOGIN_FAILURE p)
  = Normal (mkState VNull VNull false (VBool false) p).
Proof. reflexivity. Qed.

Lemma reduce_LOGOUT p :
  authReducer state (action LOGOUT p)
  = Normal (mkState VNull VNull false (VBool false) VNull).
Proof. reflexivity. Qed.

Lemma reduce_SET_LOADING p :
  authReducer state (action SET_LOADING p)
  = Normal (mkState (user state) (token state) (isAuthenticated state) p
              (error state)).
Proof. reflexivity. Qed.

Lemma reduce_CLEAR_ERROR p :
  authReducer state (action CLEAR_ERROR p)
  = Normal (mkState (user state) (token state) (isAuthenticated state)
              (loading state) VNull).
Proof. reflexivity. Qed.

Lemma reduce_UPDATE_USER p :
  authReducer state (action UPDATE_USER p)
  = Normal (mkState p (token state) (isAuthenticated state) (loading state)
              (error state)).
Proof. reflexivity. Qed.

(** A [LOGIN_SUCCESS] without a payload is the one event the reducer
    throws on. *)
Lemma reduce_LOGIN_SUCCESS_without_payload :
  authReducer state (action LOGIN_SUCCESS VUndefined) = Throw TypeError.
Proof. reflexivity. Qed.

Lemma type_is_unrecognized (a : Action) t :
  ~ In (type a) (map VString AUTH_ACTIONS) ->
  In t AUTH_ACTIONS ->
  type_is a t = false.
Proof.
  intros Hnot Hin. unfold type_is.
  destruct (type a) as [| | | |s| |]; try reflexivity.
  apply String.eqb_neq. intros ->.
  apply Hnot. apply in_map. exact Hin.
Qed.

(** The reducer returns on every event that carries what its case reads:
    any payload but [null] and [undefined] for [LOGIN_SUCCESS], anything
    at all for the others. *)
Lemma authReducer_returns (a : Action) :
  is_set (payload a) = true \/ type_is a LOGIN_SUCCESS = false ->
  exists state', authReducer state a = Normal state'.
Proof.
  intros H. unfold authReducer.
  destruct (type_is a LOGIN_START); [eauto|].
  destruct (type_is a LOGIN_SUCCESS).
  - destruct H as [H|H]; [|discriminate].
    destruct (payload a); try discriminate; simpl; eauto.
  - repeat match goal with
           | |- context [if ?b then _ else _] => destruct b
           end; eauto.
Qed.

(** C9. Whatever the state, an event whose type is not one of the seven
    action types of [AUTH_ACTIONS] (any other string, or no string at
    all) falls through to the default case: the reducer returns, without
    throwing, the very state it was given. *)
Theorem authReducer_default (a : Action) :
  ~ In (type a) (map VString AUTH_ACTIONS) ->
  authReducer state a = Normal state.
Proof.
  intros Hnot. unfold authReducer.
  rewrite !(type_is_unrecognized a) by (assumption || (simpl; tauto)).
  reflexivity.
Qed.

End Reducer.

Lemma authReducer_default_witness :
  ~ In (VString "SESSION_EXPIRED") (map VString AUTH_ACTIONS) /\
  authReducer initialState (mkAction (VString "SESSION_EXPIRED") VUndefined)
  = Normal initialState.
Proof.
  assert (H : ~ In (VString "SESSION_EXPIRED") (map VString AUTH_ACTIONS)).
  { simpl. intros H. repeat destruct H as [H|H]; try discriminate H. exact H. }
  split; [exact H|].
  apply (authReducer_default initialState
           (mkAction (VString "SESSION_EXPIRED") VUndefined)).
  exact H.
Defined.

(** ** The operations, run on their own *)

(** A rejected reply reaches the awaiting function as an exception, with
    the session and the list of pending calls as they were. *)
Lemma settle_Rejected {A} error w :
  settle (A := A) (Rejected error) w
  = (mkWorld (addResponseInterceptor error (client w)) (session w) (inflight w),
     Throw error).
Proof. reflexivity. Qed.

(** What [login] does once its reply is there, in whatever world that
    happens. *)
Lemma login_resume_Resolved data w :
  login_resume (Resolved data) w
  = (mkWorld
       (set_Authorization (Some (Bearer (access_token data)))
          (setItem (access_token data) (client w)))
       (mkState (user_value (api.user data)) (VString (access_token data)) true
          (VBool false) VNull)
       (inflight w),
     Normal (mkResult true None)).
Proof. reflexivity. Qed.

Lemma login_resume_Rejected error w :
  login_resume (Rejected error) w
  = (mkWorld (addResponseInterceptor error (client w))
       (mkState VNull VNull false (VBool false)
          (or_else (detail_of error) (VString "Erro ao fazer login")))
       (inflight w),
     Normal (mkResult false
               (Some (or_else (detail_of error) (VString "Erro ao fazer login"))))).
Proof. reflexivity. Qed.

Lemma login_start_suspends email password b w :
  login_start email password b w
  = (mkWorld
       (dispatchRequest authAPI "POST" "/auth/login" (login_data email password)
          (client w))
       (mkState (user (session w)) (token (session w))
          (isAuthenticated (session w)) (VBool true) VNull)
       (post_of_login b :: inflight w),
     Normal None).
Proof. reflexivity. Qed.

Lemma logout_runs w :
  logout w
  = (mkWorld (set_Authorization None (removeItem (client w)))
       (mkState VNull VNull false (VBool false) VNull)
       (inflight w),
     Normal tt).
Proof. reflexivity. Qed.

(** C7. When the verifier accepts the credentials and answers with a
    token and a user, [login] stores that token under [hospital_token],
    makes it the default bearer header of [authAPI], leaves the session
    authenticated with that user and that token, not loading and with no
    error, and returns [{ success: true }]. *)
Theorem login_success (email password : jsstring) (data : LoginData) (w : World) :
  let w' := exec (login email password (Resolved data)) w in
  result (login email password (Resolved data)) w = Normal (mkResult true None) /\
  hospital_token (client w') = Some (access_token data) /\
  authAPI_Authorization (client w') = Some (Bearer (access_token data)) /\
  session w' =
    mkState (user_value (api.user data)) (VString (access_token data)) true
      (VBool false) VNull /\
  inflight w' = inflight w.
Proof. repeat split. Qed.

(** C6. When the login request is rejected, the message is the [detail]
    the server sent if there is a non-empty one, and otherwise (no reply
    at all, a reply without detail, an empty detail) the fixed text
    "Erro ao fazer login". [login] leaves the session unauthenticated
    with [error] set to that message, user and token cleared, not
    loading, and returns [{ success: false, error }] with the same
    message. A detail that is not a string (the list of a validation
    failure) is passed on in the same way. *)
Theorem login_failure (email password : jsstring) (error : Exception) (w : World) :
  let errorMessage := or_else (detail_of error) (VString "Erro ao fazer login") in
  let w' := exec (login email password (Rejected error)) w in
  result (login email password (Rejected error)) w
    = Normal (mkResult false (Some errorMessage)) /\
  session w' = mkState VNull VNull false (VBool false) errorMessage /\
  (forall r m, response_of error = Some r -> detail r = VString m ->
               m <> EmptyString -> errorMessage = VString m) /\
  (response_of error = None -> errorMessage = VString "Erro ao fazer login") /\
  (forall r, response_of error = Some r ->
             detail r = VUndefined \/ detail r = VNull \/
             detail r = VString EmptyString ->
             errorMessage = VString "Erro ao fazer login") /\
  (forall r, response_of error = Some r -> truthy_value (detail r) = true ->
             errorMessage = detail r).
Proof.
  repeat split.
  - intros r m Hr Hd Hm. unfold detail_of. rewrite Hr, Hd.
    destruct m; [congruence|reflexivity].
  - intros Hr. unfold detail_of. rewrite Hr. reflexivity.
  - intros r Hr [Hd|[Hd|Hd]]; unfold detail_of; rewrite Hr, Hd; reflexivity.
  - intros r Hr Ht. unfold detail_of, or_else. rewrite Hr, Ht. reflexivity.
Qed.

(** C8. [logout] returns without throwing and leaves the token slot
    empty, the default header removed and the session cleared (no user,
    no token, no error, not authenticated, not loading); doing it a
    second time changes nothing at all in the world. *)
Theorem logout_idempotent (w : World) :
  result logout w = Normal tt /\
  hospital_token (client (exec logout w)) = None /\
  authAPI_Authorization (client (exec logout w)) = None /\
  session (exec logout w) = mkState VNull VNull false (VBool false) VNull /\
  logout (exec logout w) = logout w.
Proof. repeat split. Qed.

(** [loadStoredAuth] run from its start to its end with nothing in
    between, on a freshly loaded page that finds a (non-empty) token in
    the store: when the [/auth/me] call comes back rejected, it returns
    normally, having removed the stored token and the default header,
    and the session is unauthenticated, no longer loading, with no user,
    no token and no error. *)
Lemma loadStoredAuth_failure (w : World) (stored : string) (error : Exception) :
  session w = initialState ->
  hospital_token (client w) = Some stored ->
  truthy_str stored = true ->
  let w' := exec (loadStoredAuth (Rejected error)) w in
  result (loadStoredAuth (Rejected error)) w = Normal tt /\
  hospital_token (client w') = None /\
  authAPI_Authorization (client w') = None /\
  session w' = mkState VNull VNull false (VBool false) VNull /\
  inflight w' = inflight w.
Proof.
  destruct w as [[tok hdr path hrefs out] s pending]. cbn.
  intros -> -> Hstored.
  unfold loadStoredAuth, loadStoredAuth_start, exec, result, bind, try_catch,
    getItem. cbn.
  rewrite Hstored. repeat split.
Qed.

Lemma loadStoredAuth_failure_witness :
  session (exec (loadStoredAuth (Rejected Scenario.unauthorized))
             (mkWorld (mkClient (Some "stale") None "/" [] []) initialState []))
  = mkState VNull VNull false (VBool false) VNull.
Proof.
  apply (loadStoredAuth_failure
           (mkWorld (mkClient (Some "stale") None "/" [] []) initialState [])
           "stale" Scenario.unauthorized);
    reflexivity.
Defined.

(** C5, as the code has it. When the [/auth/me] call of
    [loadStoredAuth] is rejected, for whatever reason (no reply at all,
    a 401, any other status), the continuation returns normally, having
    removed the stored token and the default header and set [loading] to
    false. It dispatches nothing else: user, token, the authenticated
    flag and the error stay what they are when the rejection lands. If
    the session is still the initial one at that moment, it ends
    unauthenticated with no user, no token and no error. *)
Theorem loadStoredAuth_failure_lands (w : World) (stored : string)
  (error : Exception) :
  let w' := exec (loadStoredAuth_resume stored (Rejected error)) w in
  result (loadStoredAuth_resume stored (Rejected error)) w = Normal tt /\
  hospital_token (client w') = None /\
  authAPI_Authorization (client w') = None /\
  session w' =
    mkState (user (session w)) (token (session w)) (isAuthenticated (session w))
      (VBool false) (AuthContext.error (session w)) /\
  inflight w' = inflight w /\
  (session w = initialState ->
   session w' = mkState VNull VNull false (VBool false) VNull).
Proof.
  repeat split. intros Hinitial. cbn. rewrite Hinitial. reflexivity.
Qed.

(** C3, as the code has it. When a reply with status 401 lands, the
    rejected side of the response interceptor removes the stored token
    and, unless the page is already [/login], assigns [/login] to
    [window.location.href]; the error then goes on to the caller. The
    step itself leaves the session (user, token, flags and error) and
    the default [Authorization] header of [authAPI] as they were. *)
Theorem reject_step {A : Type} (error : Exception) (w : World) :
  is_401 error = true ->
  let w' := exec (settle (A := A) (Rejected error)) w in
  result (settle (A := A) (Rejected error)) w = Throw error /\
  hospital_token (client w') = None /\
  href_assigned (client w') =
    (if String.eqb (pathname (client w)) "/login"
     then href_assigned (client w)
     else "/login" :: href_assigned (client w)) /\
  session w' = session w /\
  authAPI_Authorization (client w') = authAPI_Authorization (client w) /\
  inflight w' = inflight w.
Proof.
  intros H401. cbn. unfold addResponseInterceptor. rewrite H401. cbn.
  destruct (String.eqb (pathname (client w)) "/login"); repeat split.
Qed.

Lemma reject_step_witness :
  is_401 Scenario.unauthorized = true /\
  hospital_token
    (client (exec (settle (A := unit) (Rejected Scenario.unauthorized))
               Scenario.logged_in)) = None.
Proof.
  split; [reflexivity|].
  apply (reject_step (A := unit) Scenario.unauthorized Scenario.logged_in).
  reflexivity.
Defined.

(** Away from [/login], the assignment makes the browser load the login
    page: what starts there is a fresh, unauthenticated session with an
    empty store and no default header. *)
Lemma redirect_followed {A : Type} (error : Exception) (w : World) :
  is_401 error = true ->
  pathname (client w) <> "/login" ->
  let w' := exec (settle (A := A) (Rejected error)) w in
  step w' (boot (hospital_token (client w')) "/login") /\
  boot (hospital_token (client w')) "/login"
  = mkWorld (mkClient None None "/login" [] [])
      (mkState VNull VNull false (VBool false) VNull) [].
Proof.
  intros H401 Hpath w'. apply String.eqb_neq in Hpath.
  assert (Hclient : client w' = assign_href "/login" (removeItem (client w))).
  { subst w'. cbn. unfold addResponseInterceptor. rewrite H401. cbn.
    rewrite Hpath. reflexivity. }
  split.
  - apply (step_load w' "/login" (href_assigned (client w))).
    rewrite Hclient. reflexivity.
  - rewrite Hclient. reflexivity.
Qed.

(** C2, as the code has it. A [logout] issued while the login request is
    in flight clears the session and the store at once and leaves the
    request pending. Nothing marks that request as stale: when its reply
    lands afterwards, an accepted login makes the session authenticated
    with the returned user and token and stores the token again; a
    rejected one leaves the session unauthenticated with [error] set. *)
Theorem logout_during_login (w : World) (email password : jsstring) :
  let w1 := exec (login_start email password false) w in
  let w2 := exec logout w1 in
  let landing := answered [] (inflight w) w2 in
  inflight w2 = post_of_login false :: inflight w /\
  session w2 = mkState VNull VNull false (VBool false) VNull /\
  hospital_token (client w2) = None /\
  (forall data,
     let w3 := exec (login_resume (Resolved data)) landing in
     session w3 =
       mkState (user_value (api.user data)) (VString (access_token data)) true
         (VBool false) VNull /\
     hospital_token (client w3) = Some (access_token data) /\
     authAPI_Authorization (client w3) = Some (Bearer (access_token data))) /\
  (forall error,
     let w3 := exec (login_resume (Rejected error)) landing in
     session w3 =
       mkState VNull VNull false (VBool false)
         (or_else (detail_of error) (VString "Erro ao fazer login"))).
Proof. repeat split. Qed.

(** ** The client as a whole *)

Lemma reachable_boot stored path : reachable (boot stored path).
Proof. exists stored, path. apply rtc_refl. Qed.

Lemma reachable_step w w' : reachable w -> step w w' -> reachable w'.
Proof. intros (stored & path & Hrtc) Hstep. exists stored, path. eapply rtc_r; eassumption. Qed.

Lemma reachable_ind' (P : World -> Prop) :
  (forall stored path, P (boot stored path)) ->
  (forall w w', reachable w -> P w -> step w w' -> P w') ->
  forall w, reachable w -> P w.
Proof.
  intros Hboot Hstep w (stored & path & Hrtc).
  revert w Hrtc. apply rtc_ind_r; [apply Hboot|].
  intros w1 w2 Hrtc Hs IH.
  eapply Hstep; [|exact IH|exact Hs]. exists stored, path. exact Hrtc.
Qed.

Lemma consistent_boot stored path : consistent (session (boot stored path)).
Proof.
  unfold boot, loadStoredAuth_start, exec, try_catch, bind, getItem. cbn.
  destruct (if_truthy stored); cbn; split; intros; try split; intros; discriminate.
Qed.

Lemma consistent_step w w' : step w w' -> consistent (session w) -> consistent (session w').
Proof.
  unfold consistent.
  intros Hstep [Htok Husr].
  destruct Hstep as [| w target earlier _ | | | | | | | | | | | |];
    try match goal with reply : Reply _ |- _ => destruct reply end;
    try apply consistent_boot;
    cbn; try (split; assumption);
    try (split; [split|]; intros; (reflexivity || discriminate)).
  (* the refreshed user replaces the old one *)
  split; [assumption|reflexivity].
Qed.

(** The sample runs are runs of the client. *)
Lemma login_sent_reachable : reachable Scenario.login_sent.
Proof. eapply reachable_step; [apply reachable_boot|apply step_login]. Qed.

Lemma logged_in_reachable : reachable Scenario.logged_in.
Proof.
  eapply reachable_step; [apply login_sent_reachable|].
  apply (settle_login Scenario.login_sent [] []). reflexivity.
Qed.

Lemma back_on_login_reachable : reachable Scenario.back_on_login.
Proof.
  eapply reachable_step; [|apply step_navigate].
  eapply reachable_step; [|apply step_hospitalService].
  eapply reachable_step; [|apply step_navigate].
  apply logged_in_reachable.
Qed.

Lemma refresh_landed_reachable : reachable Scenario.refresh_landed.
Proof.
  eapply reachable_step;
    [|apply (settle_getCurrentUser Scenario.logged_out_meanwhile [] []);
      reflexivity].
  eapply reachable_step; [|apply step_logout].
  eapply reachable_step; [|apply step_getCurrentUser].
  apply logged_in_reachable.
Qed.

Lemma stale_reply_landed_reachable : reachable Scenario.stale_reply_landed.
Proof.
  eapply reachable_step;
    [|apply (settle_login Scenario.logout_before_reply [] []); reflexivity].
  eapply reachable_step; [|apply step_logout].
  apply login_sent_reachable.
Qed.

(** C1, as the code has it. In every state the client can reach, the
    session holds a token exactly when it is authenticated, and an
    authenticated session holds a user. Nothing is said of a user
    without a token. *)
Theorem session_consistent (w : World) :
  reachable w ->
  (is_set (token (session w)) = true <-> isAuthenticated (session w) = true) /\
  (isAuthenticated (session w) = true -> is_set (user (session w)) = true).
Proof.
  revert w. apply reachable_ind'.
  - apply consistent_boot.
  - intros w w' _ IH Hstep. exact (consistent_step w w' Hstep IH).
Qed.

Lemma session_consistent_witness :
  (is_set (token (session Scenario.logged_in)) = true <->
   isAuthenticated (session Scenario.logged_in) = true) /\
  (isAuthenticated (session Scenario.logged_in) = true ->
   is_set (user (session Scenario.logged_in)) = true).
Proof.
  apply (session_consistent Scenario.logged_in).
  eapply reachable_step; [apply login_sent_reachable|].
  apply (settle_login Scenario.login_sent [] []). reflexivity.
Defined.

(** C1 fails as stated: log in, ask for a refresh of the user, log out
    while that request is in flight; when its reply lands, [UPDATE_USER]
    puts a user into a session that has no token and is not
    authenticated. *)
Lemma user_without_token :
  ~ (forall w, reachable w ->
       (is_set (token (session w)) = true <-> is_set (user (session w)) = true) /\
       (is_set (user (session w)) = true <-> isAuthenticated (session w) = true)).
Proof.
  intros H.
  destruct (H Scenario.refresh_landed refresh_landed_reachable) as [[_ H1] _].
  specialize (H1 eq_refl). discriminate H1.
Qed.

(** C2 fails as stated: the reply to a login that was overtaken by a
    logout makes the session authenticated again. *)
Lemma stale_login_resurrects :
  ~ (forall w email password data, reachable w ->
       let w2 := exec logout (exec (login_start email password false) w) in
       isAuthenticated
         (session (exec (login_resume (Resolved data))
                     (answered [] (inflight w) w2))) = false).
Proof.
  intros H.
  specialize (H Scenario.at_login Scenario.a_h_com Scenario.secret123
                Scenario.accepted (reachable_boot None "/login")).
  discriminate H.
Qed.

(** C3 fails as stated. A user logs in and opens the dashboard, which
    asks for the doctors; the user is back on [/login] when that call is
    answered with a 401. The interceptor empties the store and, the path
    being [/login], assigns nothing to [location.href]: the session is
    still authenticated and [authAPI] still carries the bearer header. *)
Lemma reject_step_keeps_session :
  ~ (forall w before after error,
       reachable w ->
       inflight w = before ++ get_of_hospitalService :: after ->
       is_401 error = true ->
       let w' := exec (hospitalService_resume (Rejected error))
                   (answered before after w) in
       hospital_token (client w') = None /\
       authAPI_Authorization (client w') = None /\
       isAuthenticated (session w') = false).
Proof.
  intros H.
  destruct (H Scenario.back_on_login [] [] Scenario.unauthorized
              back_on_login_reachable eq_refl eq_refl) as (_ & Hheader & _).
  discriminate Hheader.
Qed.

Lemma logged_in_while_restoring_reachable :
  reachable Scenario.logged_in_while_restoring.
Proof.
  eapply reachable_step;
    [|apply (settle_login Scenario.login_sent_while_restoring []
               [me_of_loadStoredAuth "stale"]); reflexivity].
  eapply reachable_step; [apply reachable_boot|apply step_login].
Qed.

(** C5 fails as stated: the page loads with a token of an earlier visit;
    while [/auth/me] is out the user logs in, and the login is accepted;
    then [/auth/me] is rejected. The store and the header are wiped,
    but the session stays authenticated. *)
Lemma late_restore_failure_keeps_session :
  ~ (forall w before after stored error,
       reachable w ->
       inflight w = before ++ me_of_loadStoredAuth stored :: after ->
       let w' := exec (loadStoredAuth_resume stored (Rejected error))
                   (answered before after w) in
       hospital_token (client w') = None /\
       authAPI_Authorization (client w') = None /\
       isAuthenticated (session w') = false /\
       AuthContext.error (session w') = VNull).
Proof.
  intros H.
  destruct (H Scenario.logged_in_while_restoring [] [] "stale"
              Scenario.unauthorized logged_in_while_restoring_reachable eq_refl)
    as (_ & _ & Hflag & _).
  discriminate Hflag.
Qed.

(** C4 fails for [register] itself: handed a doctor without CRM, it
    marks the session as loading and posts the registration. *)
Lemma register_does_not_validate :
  ~ (forall userData w, reachable w ->
       Form.role userData = js "doctor" ->
       trim (Form.crm userData) = [] \/ trim (Form.especialidade userData) = [] ->
       sent (client (exec (register_start userData) w)) = sent (client w) /\
       session (exec (register_start userData) w) = session w).
Proof.
  intros H.
  destruct (H Scenario.doctor_without_crm Scenario.at_register
              (reachable_boot None "/register") eq_refl (or_introl eq_refl))
    as [Hsent _].
  discriminate Hsent.
Qed.

(** ** The registration form *)

Import Form RegisterPage.

Section Validation.

Variable d : FormData.

(** Each check writes under its own keys only. *)
Lemma check_nome_other m k : k <> "nome" -> check_nome d m !! k = m !! k.
Proof.
  intros Hk. unfold check_nome.
  destruct (negb _); [apply lookup_insert_ne; congruence|reflexivity].
Qed.

Lemma check_email_other m k : k <> "email" -> check_email d m !! k = m !! k.
Proof.
  intros Hk. unfold check_email.
  destruct (negb _); [apply lookup_insert_ne; congruence|].
  destruct (negb _); [apply lookup_insert_ne; congruence|reflexivity].
Qed.

Lemma check_password_other m k : k <> "password" -> check_password d m !! k = m !! k.
Proof.
  intros Hk. unfold check_password.
  destruct (negb _); [apply lookup_insert_ne; congruence|].
  destruct (_ <? _)%nat; [apply lookup_insert_ne; congruence|reflexivity].
Qed.

Lemma check_confirm_password_other m k :
  k <> "confirm_password" -> check_confirm_password d m !! k = m !! k.
Proof.
  intros Hk. unfold check_confirm_password.
  destruct (negb _); [apply lookup_insert_ne; congruence|].
  destruct (negb _); [apply lookup_insert_ne; congruence|reflexivity].
Qed.

Lemma check_doctor_other m k :
  k <> "crm" -> k <> "especialidade" -> check_doctor d m !! k = m !! k.
Proof.
  intros Hc He. unfold check_doctor.
  destruct (jsstring_eqb _ _); [|reflexivity].
  destruct (negb (truthy (trim (especialidade d))));
    destruct (negb (truthy (trim (crm d))));
    rewrite ?lookup_insert_ne by congruence; reflexivity.
Qed.

(** A password of fewer than six code units gets a message. *)
Lemma errors_of_password :
  length (password d) < 6 ->
  exists message, errors_of d !! "password" = Some (Some message).
Proof.
  intros Hlen. unfold errors_of.
  rewrite check_doctor_other, check_confirm_password_other by discriminate.
  unfold check_password.
  destruct (negb (truthy (password d))).
  - eexists. apply lookup_insert_eq.
  - destruct (Nat.ltb_spec (length (password d)) 6) as [_|Hge]; [|lia].
    eexists. apply lookup_insert_eq.
Qed.

(** So does a confirmation that is not the password. *)
Lemma errors_of_confirm_password :
  password d <> confirm_password d ->
  exists message, errors_of d !! "confirm_password" = Some (Some message).
Proof.
  intros Hne. unfold errors_of.
  rewrite check_doctor_other by discriminate.
  unfold check_confirm_password.
  destruct (negb (truthy (confirm_password d))).
  - eexists. apply lookup_insert_eq.
  - unfold jsstring_eqb. rewrite bool_decide_eq_false_2 by exact Hne. cbn.
    eexists. apply lookup_insert_eq.
Qed.

Lemma blank_not_truthy (s : jsstring) : trim s = [] -> negb (truthy (trim s)) = true.
Proof. intros ->. reflexivity. Qed.

(** A doctor with a blank CRM, or a blank specialty, gets the message of
    that field. *)
Lemma errors_of_crm :
  role d = js "doctor" ->
  trim (crm d) = [] ->
  errors_of d !! "crm" = Some (Some "CRM é obrigatório para médicos").
Proof.
  intros Hrole Hblank. unfold errors_of, check_doctor, jsstring_eqb.
  rewrite bool_decide_eq_true_2 by exact Hrole.
  rewrite (blank_not_truthy _ Hblank).
  destruct (negb (truthy (trim (especialidade d)))).
  - rewrite lookup_insert_ne by discriminate. apply lookup_insert_eq.
  - apply lookup_insert_eq.
Qed.

Lemma errors_of_especialidade :
  role d = js "doctor" ->
  trim (especialidade d) = [] ->
  errors_of d !! "especialidade"
  = Some (Some "Especialidade é obrigatória para médicos").
Proof.
  intros Hrole Hblank. unfold errors_of, check_doctor, jsstring_eqb.
  rewrite bool_decide_eq_true_2 by exact Hrole.
  rewrite (blank_not_truthy _ Hblank).
  apply lookup_insert_eq.
Qed.

(** With an entry in [errors], the form is not valid. *)
Lemma invalid_by_entry k x :
  errors_of d !! k = Some x -> (size (errors_of d) =? 0)%nat = false.
Proof.
  intros Hk. apply Nat.eqb_neq.
  apply (map_size_ne_0_lookup_2 _ k). rewrite Hk. eauto.
Qed.

End Validation.

(** While a submission is under way, the form is the one that passed
    validation. *)
Lemma submitting_is_valid (p : Component) :
  rendered p -> isSubmitting p = true -> size (errors_of (formData p)) = 0.
Proof.
  unfold rendered. revert p.
  apply (rtc_ind_r
           (fun p => isSubmitting p = true -> size (errors_of (formData p)) = 0));
    [discriminate|].
  intros p p' _ Hstep IH.
  destruct Hstep as [p name v Hidle|p w|p Hbusy]; cbn.
  - rewrite Hidle. discriminate.
  - unfold handleSubmit. destruct (isSubmitting p) eqn:Hbusy.
    + cbn. intros _. apply IH. reflexivity.
    + cbn. destruct (Nat.eqb_spec (size (errors_of (formData p))) 0) as [Hz|Hnz];
        cbn; [intros _; exact Hz|].
      rewrite Hbusy. discriminate.
  - discriminate.
Qed.

(** What [handleSubmit] does with a form that has an entry in [errors]. *)
Lemma handleSubmit_invalid (p : Component) (w : World) k x :
  rendered p ->
  errors_of (formData p) !! k = Some x ->
  handleSubmit p w = (mkComponent (formData p) false (errors_of (formData p)), w).
Proof.
  intros Hp Hk. unfold handleSubmit.
  destruct (isSubmitting p) eqn:Hbusy.
  - pose proof (submitting_is_valid p Hp Hbusy) as Hz.
    pose proof (invalid_by_entry _ _ _ Hk) as Hnz.
    rewrite Hz in Hnz. discriminate.
  - cbn. rewrite (invalid_by_entry _ _ _ Hk), Hbusy. reflexivity.
Qed.

(** C4, as the code has it. The check is made by the form, not by
    [register]: when the form of the registration page is submitted with
    the role doctor and a CRM or a specialty that is empty or all white
    space, [handleSubmit] stops after [validateForm], with the message of
    each blank field in [validationErrors]; [register] is not called, so
    no request is sent and the session is what it was. *)
Theorem submit_rejects_incomplete_doctor (p : Component) (w : World) :
  rendered p ->
  role (formData p) = js "doctor" ->
  trim (crm (formData p)) = [] \/ trim (especialidade (formData p)) = [] ->
  snd (handleSubmit p w) = w /\
  isSubmitting (fst (handleSubmit p w)) = false /\
  (trim (crm (formData p)) = [] ->
   validationErrors (fst (handleSubmit p w)) !! "crm"
   = Some (Some "CRM é obrigatório para médicos")) /\
  (trim (especialidade (formData p)) = [] ->
   validationErrors (fst (handleSubmit p w)) !! "especialidade"
   = Some (Some "Especialidade é obrigatória para médicos")).
Proof.
  intros Hp Hrole Hblank.
  assert (Hentry : exists k x, errors_of (formData p) !! k = Some x).
  { destruct Hblank as [Hc|He].
    - eexists _, _. apply (errors_of_crm _ Hrole Hc).
    - eexists _, _. apply (errors_of_especialidade _ Hrole He). }
  destruct Hentry as (k & x & Hk).
  rewrite (handleSubmit_invalid p w k x Hp Hk). cbn.
  repeat split.
  - apply errors_of_crm. exact Hrole.
  - apply errors_of_especialidade. exact Hrole.
Qed.

Lemma submit_rejects_incomplete_doctor_witness :
  snd (handleSubmit initial Scenario.at_register) = Scenario.at_register /\
  validationErrors (fst (handleSubmit initial Scenario.at_register)) !! "crm"
  = Some (Some "CRM é obrigatório para médicos").
Proof.
  destruct (submit_rejects_incomplete_doctor initial Scenario.at_register)
    as (Hw & _ & Hcrm & _).
  - apply rtc_refl.
  - reflexivity.
  - left. reflexivity.
  - split; [exact Hw|]. apply Hcrm. reflexivity.
Defined.



(** * Further properties *)

(** ** The reducer, case by case *)

Lemma type_is_true (a : Action) t : type_is a t = true -> type a = VString t.
Proof.
  unfold type_is. destruct (type a) as [| | | |s| |]; try discriminate.
  intros H. apply String.eqb_eq in H. congruence.
Qed.

Lemma type_is_other (a : Action) t t' :
  type_is a t = true -> t <> t' -> type_is a t' = false.
Proof.
  intros H Hne. unfold type_is. rewrite (type_is_true a t H).
  apply String.eqb_neq. exact Hne.
Qed.

(** X1. The reducer throws in one situation only: a [LOGIN_SUCCESS]
    whose payload is [null] or [undefined]; what it throws then is a
    [TypeError]. *)
Theorem authReducer_throws_iff (state : State) (a : Action) (e : Exception) :
  authReducer state a = Throw e <->
  type_is a LOGIN_SUCCESS = true /\ is_set (payload a) = false /\ e = TypeError.
Proof.
  split.
  - unfold authReducer.
    destruct (type_is a LOGIN_START); [discriminate|].
    destruct (type_is a LOGIN_SUCCESS).
    + destruct (payload a); cbn; try discriminate;
        intros H; injection H as <-; repeat split.
    + repeat match goal with
             | |- context [if ?b then _ else _] => destruct b
             end; discriminate.
  - intros (Htype & Hset & ->). unfold authReducer.
    rewrite (type_is_other a LOGIN_SUCCESS LOGIN_START Htype) by discriminate.
    rewrite Htype. destruct (payload a); try discriminate; reflexivity.
Qed.

(** X2. Only [LOGIN_SUCCESS], [LOGIN_FAILURE] and [LOGOUT] touch the
    token and the authenticated flag; the user is touched by these and
    by [UPDATE_USER] only. *)
Theorem authReducer_frame (state state' : State) (a : Action) :
  authReducer state a = Normal state' ->
  type_is a LOGIN_SUCCESS = false ->
  type_is a LOGIN_FAILURE = false ->
  type_is a LOGOUT = false ->
  token state' = token state /\
  isAuthenticated state' = isAuthenticated state /\
  (type_is a UPDATE_USER = false -> user state' = user state).
Proof.
  unfold authReducer. intros H Hs Hf Ho. rewrite Hs, Hf, Ho in H.
  repeat match type of H with
         | context [if ?b then _ else _] => destruct b eqn:?
         end;
    injection H as <-; cbn; repeat split; intros; (reflexivity || discriminate).
Qed.

Lemma authReducer_frame_witness :
  token (mkState VNull (VString "tok") true (VBool true) VNull) = VString "tok".
Proof.
  apply (authReducer_frame
           (mkState VNull (VString "tok") true (VBool false) VNull)
           (mkState VNull (VString "tok") true (VBool true) VNull)
           (action SET_LOADING (VBool true))); reflexivity.
Defined.

(** X3. An error enters the session through [LOGIN_FAILURE] only: after
    any other event the error is the one that was there, or none. *)
Theorem error_only_by_LOGIN_FAILURE (state state' : State) (a : Action) :
  authReducer state a = Normal state' ->
  type_is a LOGIN_FAILURE = false ->
  error state' = error state \/ error state' = VNull.
Proof.
  unfold authReducer. intros H Hf. rewrite Hf in H.
  destruct (type_is a LOGIN_START); [injection H as <-; right; reflexivity|].
  destruct (type_is a LOGIN_SUCCESS).
  { destruct (get (payload a) "user"); [|discriminate].
    destruct (get (payload a) "token"); [|discriminate].
    injection H as <-. right. reflexivity. }
  repeat match type of H with
         | context [if ?b then _ else _] => destruct b eqn:?
         end;
    injection H as <-; cbn; auto.
Qed.

Lemma error_only_by_LOGIN_FAILURE_witness :
  error (mkState VNull VNull false (VBool false) (VString "Invalid credentials"))
  = VString "Invalid credentials" \/
  error (mkState VNull VNull false (VBool false) (VString "Invalid credentials"))
  = VNull.
Proof.
  apply (error_only_by_LOGIN_FAILURE
           (mkState VNull VNull false (VBool true) (VString "Invalid credentials"))
           (mkState VNull VNull false (VBool false) (VString "Invalid credentials"))
           (action SET_LOADING (VBool false))); reflexivity.
Defined.

(** ** Restoring a session *)

(** X4. When the page loads with a non-empty token in the store and the
    [/auth/me] call succeeds, [loadStoredAuth] leaves the session
    authenticated with the returned user and the stored token; the store
    is untouched, the default header carries the token, and the request
    that was sent carried it too. *)
Theorem loadStoredAuth_success (w : World) (stored : string) (u : User) :
  hospital_token (client w) = Some stored ->
  truthy_str stored = true ->
  let w' := exec (loadStoredAuth (Resolved u)) w in
  result (loadStoredAuth (Resolved u)) w = Normal tt /\
  session w' = mkState (user_value u) (VString stored) true (VBool false) VNull /\
  hospital_token (client w') = Some stored /\
  authAPI_Authorization (client w') = Some (Bearer stored) /\
  sent (client w')
  = mkRequest authAPI "GET" "/auth/me" (Some (Bearer stored)) no_data
      :: sent (client w) /\
  inflight w' = inflight w.
Proof.
  destruct w as [[tok hdr path hrefs out] s pending]. cbn.
  intros -> Hstored.
  unfold loadStoredAuth, loadStoredAuth_start, exec, result, bind, try_catch,
    getItem. cbn.
  rewrite Hstored. cbn. unfold dispatchRequest, addAuthInterceptor. cbn.
  rewrite Hstored. repeat split.
Qed.

Lemma loadStoredAuth_success_witness :
  session (exec (loadStoredAuth (Resolved Scenario.ana))
             (mkWorld (mkClient (Some "tok") None "/" [] []) initialState []))
  = mkState (user_value Scenario.ana) (VString "tok") true (VBool false) VNull.
Proof.
  apply (loadStoredAuth_success
           (mkWorld (mkClient (Some "tok") None "/" [] []) initialState [])
           "tok" Scenario.ana); reflexivity.
Defined.

(** X5. With no token in the store, or an empty one, [loadStoredAuth]
    sends nothing and sets no header: all it does is to end the loading
    state, whatever the reply would have been. *)
Theorem loadStoredAuth_without_token (w : World) (reply : Reply User) :
  if_truthy (hospital_token (client w)) = None ->
  loadStoredAuth reply w
  = (mkWorld (client w)
       (mkState (user (session w)) (token (session w))
          (isAuthenticated (session w)) (VBool false) (error (session w)))
       (inflight w),
     Normal tt).
Proof.
  intros Hnone.
  unfold loadStoredAuth, loadStoredAuth_start, exec, result, bind, try_catch,
    getItem. cbn.
  rewrite Hnone. reflexivity.
Qed.

Lemma loadStoredAuth_without_token_witness :
  loadStoredAuth (Resolved Scenario.ana)
    (mkWorld (mkClient (Some EmptyString) None "/" [] []) initialState [])
  = (mkWorld (mkClient (Some EmptyString) None "/" [] [])
       (mkState VNull VNull false (VBool false) VNull) [],
     Normal tt).
Proof.
  apply (loadStoredAuth_without_token
           (mkWorld (mkClient (Some EmptyString) None "/" [] []) initialState [])
           (Resolved Scenario.ana)).
  reflexivity.
Defined.

(** The page loaded afresh with what a world left in the store. *)
Lemma boot_is_loadStoredAuth_start stored path :
  boot stored path
  = exec loadStoredAuth_start
      (mkWorld (mkClient stored None path [] []) initialState []).
Proof. reflexivity. Qed.

(** X6. A session survives a reload: after an accepted login with a
    non-empty token, a page loaded afresh with the store as [login] left
    it, and whose [/auth/me] call returns the same user, ends in the
    very session the login had produced. *)
Theorem login_then_reload (w : World) (email password : jsstring)
  (data : LoginData) (path : string) :
  truthy_str (access_token data) = true ->
  let logged := exec (login email password (Resolved data)) w in
  let fresh :=
    mkWorld (mkClient (hospital_token (client logged)) None path [] [])
      initialState [] in
  session (exec (loadStoredAuth (Resolved (api.user data))) fresh)
  = session logged.
Proof.
  intros Htoken logged fresh.
  destruct (loadStoredAuth_success fresh (access_token data) (api.user data)
              eq_refl Htoken) as (_ & Hsession & _).
  rewrite Hsession. reflexivity.
Qed.

Lemma login_then_reload_witness :
  session
    (exec (loadStoredAuth (Resolved (api.user Scenario.accepted)))
       (mkWorld
          (mkClient
             (hospital_token
                (client (exec (login Scenario.a_h_com Scenario.secret123
                                 (Resolved Scenario.accepted))
                           Scenario.at_login)))
             None "/dashboard" [] [])
          initialState []))
  = session (exec (login Scenario.a_h_com Scenario.secret123
                     (Resolved Scenario.accepted)) Scenario.at_login).
Proof.
  apply (login_then_reload Scenario.at_login Scenario.a_h_com Scenario.secret123
           Scenario.accepted "/dashboard").
  reflexivity.
Defined.

(** X7. But a login that was answered with an empty token does not
    survive a reload: the empty string is stored, [loadStoredAuth] takes
    it for no token, sends nothing and leaves the fresh session
    unauthenticated. *)
Theorem empty_token_is_not_restored (w : World) (email password : jsstring)
  (data : LoginData) (path : string) (reply : Reply User) :
  access_token data = EmptyString ->
  let logged := exec (login email password (Resolved data)) w in
  let fresh :=
    mkWorld (mkClient (hospital_token (client logged)) None path [] [])
      initialState [] in
  isAuthenticated (session logged) = true /\
  session (exec (loadStoredAuth reply) fresh)
  = mkState VNull VNull false (VBool false) VNull /\
  sent (client (exec (loadStoredAuth reply) fresh)) = [].
Proof.
  intros Hempty logged fresh.
  split; [reflexivity|].
  unfold exec. rewrite (loadStoredAuth_without_token fresh reply).
  - split; reflexivity.
  - subst fresh logged. cbn. rewrite Hempty. reflexivity.
Qed.

Lemma empty_token_is_not_restored_witness :
  sent
    (client
       (exec (loadStoredAuth (Resolved Scenario.ana))
          (mkWorld
             (mkClient
                (hospital_token
                   (client
                      (exec (login Scenario.a_h_com Scenario.secret123
                               (Resolved (mkLoginData EmptyString Scenario.ana)))
                         Scenario.at_login)))
                None "/" [] [])
             initialState [])))
  = [].
Proof.
  apply (empty_token_is_not_restored Scenario.at_login Scenario.a_h_com
           Scenario.secret123 (mkLoginData EmptyString Scenario.ana) "/"
           (Resolved Scenario.ana)).
  reflexivity.
Defined.

(** ** Registration and its automatic login *)

(** The response interceptor sends nothing. *)
Lemma addResponseInterceptor_sent error c :
  sent (addResponseInterceptor error c) = sent c.
Proof.
  unfold addResponseInterceptor.
  destruct (is_401 error); [|reflexivity].
  cbn. destruct (negb _); reflexivity.
Qed.

(** X8. When the registration and the login that follows it are both
    accepted, [register] returns [{ success: true }] and the session is
    the one the login produces; two requests were sent, the registration
    first. *)
Theorem register_then_login (w : World) (userData : FormData) (data : LoginData) :
  let run := register userData (Resolved tt) (Resolved data) in
  result run w = Normal (mkResult true None) /\
  session (exec run w)
  = mkState (user_value (api.user data)) (VString (access_token data)) true
      (VBool false) VNull /\
  hospital_token (client (exec run w)) = Some (access_token data) /\
  map url (sent (client (exec run w)))
  = "/auth/login" :: "/auth/register" :: map url (sent (client w)) /\
  inflight (exec run w) = inflight w.
Proof. repeat split. Qed.

(** X9. When the registration is accepted and the login that follows is
    rejected, [register] reports the fixed text "Cadastro realizado, mas
    falha no login automático", while the error left in the session is
    the message of the failed login; the session is unauthenticated. *)
Theorem register_then_login_fails (w : World) (userData : FormData)
  (error : Exception) :
  let run := register userData (Resolved tt) (Rejected error) in
  result run w
  = Normal (mkResult false
              (Some (VString "Cadastro realizado, mas falha no login automático"))) /\
  session (exec run w)
  = mkState VNull VNull false (VBool false)
      (or_else (detail_of error) (VString "Erro ao fazer login")) /\
  map url (sent (client (exec run w)))
  = "/auth/login" :: "/auth/register" :: map url (sent (client w)).
Proof.
  cbn. repeat split. rewrite addResponseInterceptor_sent. reflexivity.
Qed.

(** X10. When the registration itself is rejected, no login is
    attempted: the one request sent is the registration, and [register]
    returns, and leaves as the session's error, the server's detail or
    else "Erro ao cadastrar usuário". *)
Theorem register_fails (w : World) (userData : FormData) (error : Exception)
  (login_reply : Reply LoginData) :
  let run := register userData (Rejected error) login_reply in
  let errorMessage :=
    or_else (detail_of error) (VString "Erro ao cadastrar usuário") in
  result run w = Normal (mkResult false (Some errorMessage)) /\
  session (exec run w)
  = mkState VNull VNull false (VBool false) errorMessage /\
  map url (sent (client (exec run w)))
  = "/auth/register" :: map url (sent (client w)) /\
  inflight (exec run w) = inflight w.
Proof.
  cbn. repeat split. rewrite addResponseInterceptor_sent. reflexivity.
Qed.

(** ** Refreshing the user *)

(** X11. [getCurrentUser] never throws. A successful call replaces the
    user and nothing else in the session, and returns the user; a failed
    one returns [null] and leaves the session exactly as it was. *)
Theorem getCurrentUser_outcomes (w : World) :
  (forall u,
     result (getCurrentUser (Resolved u)) w = Normal (Some u) /\
     session (exec (getCurrentUser (Resolved u)) w)
     = mkState (user_value u) (token (session w)) (isAuthenticated (session w))
         (loading (session w)) (error (session w))) /\
  (forall error,
     result (getCurrentUser (Rejected error)) w = Normal None /\
     session (exec (getCurrentUser (Rejected error)) w) = session w).
Proof. repeat split. Qed.

(** ** Messages *)

Lemma or_else_truthy (x d : value) :
  truthy_value d = true -> truthy_value (or_else x d) = true.
Proof.
  intros Hd. unfold or_else.
  destruct (truthy_value x) eqn:Hx; [exact Hx|exact Hd].
Qed.

(** X12. A failed login or registration always leaves something to
    show: the error of the session is truthy (never [null], [undefined],
    the empty string, [false] or [0]), whatever the server sent or failed
    to send; and whenever the server's detail is not itself truthy, the
    error is the fixed text of the operation. *)
Theorem failure_leaves_a_message (w : World) (error : Exception) :
  (forall email password,
     truthy_value
       (AuthContext.error (session (exec (login email password (Rejected error)) w)))
     = true /\
     (truthy_value (detail_of error) = false ->
      AuthContext.error (session (exec (login email password (Rejected error)) w))
      = VString "Erro ao fazer login")) /\
  (forall userData login_reply,
     truthy_value
       (AuthContext.error
          (session (exec (register userData (Rejected error) login_reply) w)))
     = true /\
     (truthy_value (detail_of error) = false ->
      AuthContext.error
        (session (exec (register userData (Rejected error) login_reply) w))
      = VString "Erro ao cadastrar usuário")) /\
  (forall userData,
     truthy_value
       (AuthContext.error
          (session (exec (register userData (Resolved tt) (Rejected error)) w)))
     = true /\
     (truthy_value (detail_of error) = false ->
      AuthContext.error
        (session (exec (register userData (Resolved tt) (Rejected error)) w))
      = VString "Erro ao fazer login")).
Proof.
  repeat split; intros; cbn;
    try (apply or_else_truthy; reflexivity);
    unfold or_else;
    match goal with H : truthy_value _ = false |- _ => rewrite H end;
    reflexivity.
Qed.

(** X13. [handleAPIError] never returns the empty string (nor anything
    else that is falsy), and when the server sent a non-empty detail it
    returns that detail. *)
Theorem handleAPIError_message (error : Exception) :
  truthy_value (handleAPIError error) = true /\
  handleAPIError error <> VString EmptyString /\
  (forall r m, error = AxiosError (Some r) -> detail r = VString m ->
               truthy_str m = true -> handleAPIError error = VString m).
Proof.
  assert (Htruthy : truthy_value (handleAPIError error) = true).
  { destruct error as [|[r|]]; cbn; try reflexivity.
    apply or_else_truthy. reflexivity. }
  split; [exact Htruthy|]. split.
  - intros Hempty. rewrite Hempty in Htruthy. discriminate.
  - intros r m -> Hd Hm. cbn. unfold or_else. rewrite Hd. cbn. rewrite Hm.
    reflexivity.
Qed.

(** ** The credential a request carries *)

(** The header of the request an instance would send now. *)
Lemma dispatchRequest_Authorization i m u d c :
  sent (dispatchRequest i m u d c)
  = mkRequest i m u (addAuthInterceptor c (defaults_Authorization i c)) d
      :: sent c.
Proof. reflexivity. Qed.

(** X14. After [logout], a request of either instance leaves without an
    [Authorization] header. *)
Theorem no_credential_after_logout (w : World) (i : Instance) (m u : string)
  (d : Body) :
  sent (dispatchRequest i m u d (client (exec logout w)))
  = mkRequest i m u None d :: sent (client w).
Proof. destruct i; reflexivity. Qed.

(** X15. After an accepted login with a non-empty token, a request of
    either instance carries that token as its bearer credential. *)
Theorem credential_after_login (w : World) (email password : jsstring)
  (data : LoginData) (i : Instance) (m u : string) (d : Body) :
  truthy_str (access_token data) = true ->
  let c := client (exec (login email password (Resolved data)) w) in
  sent (dispatchRequest i m u d c)
  = mkRequest i m u (Some (Bearer (access_token data))) d :: sent c.
Proof.
  intros Htoken. cbn. unfold dispatchRequest, addAuthInterceptor. cbn.
  rewrite Htoken. reflexivity.
Qed.

Lemma credential_after_login_witness :
  sent (dispatchRequest hospitalAPI "GET" "/medicos" no_data
          (client (exec (login Scenario.a_h_com Scenario.secret123
                           (Resolved Scenario.accepted)) Scenario.at_login)))
  = mkRequest hospitalAPI "GET" "/medicos" (Some (Bearer "tok")) no_data
      :: sent (client (exec (login Scenario.a_h_com Scenario.secret123
                               (Resolved Scenario.accepted)) Scenario.at_login)).
Proof.
  apply (credential_after_login Scenario.at_login Scenario.a_h_com
           Scenario.secret123 Scenario.accepted hospitalAPI "GET" "/medicos"
           no_data).
  reflexivity.
Defined.

(** X16. After a 401, the stored token is gone, so a request of
    [hospitalAPI] leaves without credential; a request of [authAPI]
    still leaves with the default header the instance had, if any. *)
Theorem credential_after_401 (w : World) (error : Exception) (m u : string)
  (d : Body) :
  is_401 error = true ->
  let c := client (exec (settle (A := unit) (Rejected error)) w) in
  sent (dispatchRequest hospitalAPI m u d c)
  = mkRequest hospitalAPI m u None d :: sent (client w) /\
  sent (dispatchRequest authAPI m u d c)
  = mkRequest authAPI m u (authAPI_Authorization (client w)) d
      :: sent (client w).
Proof.
  intros H401. cbn. unfold addResponseInterceptor. rewrite H401. cbn.
  destruct (negb _); split; reflexivity.
Qed.

Lemma credential_after_401_witness :
  sent (dispatchRequest authAPI "GET" "/auth/me" no_data
          (client (exec (settle (A := unit) (Rejected Scenario.unauthorized))
                     Scenario.logged_in)))
  = mkRequest authAPI "GET" "/auth/me" (Some (Bearer "tok")) no_data
      :: sent (client Scenario.logged_in).
Proof.
  apply (credential_after_401 Scenario.logged_in Scenario.unauthorized
           "GET" "/auth/me" no_data).
  reflexivity.
Defined.

(** ** What every run keeps *)

Lemma addResponseInterceptor_href error c :
  Forall (eq "/login") (href_assigned c) ->
  Forall (eq "/login") (href_assigned (addResponseInterceptor error c)).
Proof.
  intros H. unfold addResponseInterceptor.
  destruct (is_401 error); [|exact H].
  cbn. destruct (negb _); [|exact H].
  constructor; [reflexivity|exact H].
Qed.

Lemma href_boot stored path :
  Forall (eq "/login") (href_assigned (client (boot stored path))).
Proof.
  unfold boot, loadStoredAuth_start, exec, try_catch, bind, getItem. cbn.
  destruct (if_truthy stored); cbn; constructor.
Qed.

(** X17. The only address ever assigned to [window.location.href] is
    [/login]. *)
Theorem redirects_go_to_login (w : World) :
  reachable w -> Forall (eq "/login") (href_assigned (client w)).
Proof.
  revert w. apply reachable_ind'; [apply href_boot|].
  intros w w' _ IH Hstep.
  destruct Hstep as [| w target earlier _ | | | | | | | | | | | |];
    try match goal with reply : Reply _ |- _ => destruct reply end;
    try apply href_boot;
    cbn; try exact IH; try (apply addResponseInterceptor_href; exact IH).
Qed.

Lemma redirects_go_to_login_witness :
  Forall (eq "/login") (href_assigned (client Scenario.back_on_login)).
Proof.
  apply (redirects_go_to_login Scenario.back_on_login).
  eapply reachable_step; [|apply step_navigate].
  eapply reachable_step; [|apply step_hospitalService].
  eapply reachable_step; [|apply step_navigate].
  apply logged_in_reachable.
Defined.

Lemma well_typed_boot stored path : well_typed (session (boot stored path)).
Proof.
  unfold boot, loadStoredAuth_start, exec, try_catch, bind, getItem. cbn.
  destruct (if_truthy stored); cbn; split; eauto.
Qed.

Lemma well_typed_step w w' :
  step w w' -> well_typed (session w) -> well_typed (session w').
Proof.
  unfold well_typed.
  intros Hstep (Hl & He).
  destruct Hstep as [| w target earlier _ | | | | | | | | | | | |];
    try match goal with reply : Reply _ |- _ => destruct reply end;
    try apply well_typed_boot;
    cbn; split; eauto.
  (* the cases that end in a [LOGIN_FAILURE] *)
  all: right; apply or_else_truthy; reflexivity.
Qed.

(** X18. In every state the client can reach, [loading] is a boolean and
    [error] is [null] or a truthy value: never [undefined], the empty
    string, [false] or [0]. So [loading] and [error &&] behave in the
    pages as a flag and as "there is a message". *)
Theorem session_well_typed (w : World) :
  reachable w ->
  (exists b, loading (session w) = VBool b) /\
  (AuthContext.error (session w) = VNull \/
   truthy_value (AuthContext.error (session w)) = true).
Proof.
  revert w. apply reachable_ind'.
  - apply well_typed_boot.
  - intros w w' _ IH Hstep. exact (well_typed_step w w' Hstep IH).
Qed.

Lemma session_well_typed_witness :
  (exists b, loading (session Scenario.logged_in) = VBool b) /\
  (AuthContext.error (session Scenario.logged_in) = VNull \/
   truthy_value (AuthContext.error (session Scenario.logged_in)) = true).
Proof.
  apply (session_well_typed Scenario.logged_in).
  eapply reachable_step; [apply login_sent_reachable|].
  apply (settle_login Scenario.login_sent [] []). reflexivity.
Defined.

(** ** What a single step can do *)

(** X19. The session never becomes authenticated on its own: a step that
    takes it from unauthenticated to authenticated is the landing of an
    accepting reply, either to the [/auth/me] request of
    [loadStoredAuth] or to a login request ([login] called by a page, or
    by [register]). *)
Theorem authenticated_only_by_reply (w w' : World) :
  step w w' ->
  isAuthenticated (session w) = false ->
  isAuthenticated (session w') = true ->
  (exists before after stored u,
     inflight w = before ++ me_of_loadStoredAuth stored :: after /\
     w' = exec (loadStoredAuth_resume stored (Resolved u))
            (answered before after w)) \/
  (exists before after data,
     inflight w = before ++ post_of_login false :: after /\
     w' = exec (login_resume (Resolved data)) (answered before after w)) \/
  (exists before after data,
     inflight w = before ++ post_of_login true :: after /\
     w' = exec (register_login_resume (Resolved data)) (answered before after w)).
Proof.
  intros Hstep Hno Hyes.
  destruct Hstep as
    [ w path | w target earlier _ | w email password | w userData | w | w | w
    | w u | w before after stored reply Hp | w before after reply Hp
    | w before after userData reply Hp | w before after reply Hp
    | w before after reply Hp | w before after reply Hp ].
  - cbn in Hyes. congruence.
  - exfalso. revert Hyes.
    unfold boot, loadStoredAuth_start, exec, try_catch, bind, getItem. cbn.
    destruct (if_truthy _); cbn; discriminate.
  - cbn in Hyes. congruence.
  - cbn in Hyes. congruence.
  - cbn in Hyes. discriminate.
  - cbn in Hyes. congruence.
  - cbn in Hyes. congruence.
  - cbn in Hyes. congruence.
  - destruct reply as [u|error]; [|cbn in Hyes; congruence].
    left. exists before, after, stored, u. split; [exact Hp|reflexivity].
  - destruct reply as [data|error]; [|cbn in Hyes; discriminate].
    right. left. exists before, after, data. split; [exact Hp|reflexivity].
  - destruct reply; cbn in Hyes; (congruence || discriminate).
  - destruct reply as [data|error]; [|cbn in Hyes; discriminate].
    right. right. exists before, after, data. split; [exact Hp|reflexivity].
  - destruct reply; cbn in Hyes; congruence.
  - destruct reply; cbn in Hyes; congruence.
Qed.

Lemma authenticated_only_by_reply_witness :
  (exists before after stored u,
     inflight Scenario.login_sent = before ++ me_of_loadStoredAuth stored :: after /\
     Scenario.logged_in
     = exec (loadStoredAuth_resume stored (Resolved u))
         (answered before after Scenario.login_sent)) \/
  (exists before after data,
     inflight Scenario.login_sent = before ++ post_of_login false :: after /\
     Scenario.logged_in
     = exec (login_resume (Resolved data))
         (answered before after Scenario.login_sent)) \/
  (exists before after data,
     inflight Scenario.login_sent = before ++ post_of_login true :: after /\
     Scenario.logged_in
     = exec (register_login_resume (Resolved data))
         (answered before after Scenario.login_sent)).
Proof.
  apply (authenticated_only_by_reply Scenario.login_sent Scenario.logged_in).
  - apply (settle_login Scenario.login_sent [] []). reflexivity.
  - reflexivity.
  - reflexivity.
Defined.

Lemma boot_store stored path : hospital_token (client (boot stored path)) = stored.
Proof.
  unfold boot, loadStoredAuth_start, exec, try_catch, bind, getItem. cbn.
  destruct (if_truthy stored); reflexivity.
Qed.

Lemma addResponseInterceptor_store error c t :
  hospital_token (addResponseInterceptor error c) = Some t ->
  hospital_token c = Some t.
Proof.
  unfold addResponseInterceptor.
  destruct (is_401 error); [|auto].
  cbn. destruct (negb _); discriminate.
Qed.

(** X20. A token gets into the store in one way only: a step after which
    the store holds a token it did not hold before is the landing of an
    accepting reply to a login request, and the token is the
    [access_token] of that reply. *)
Theorem stored_only_by_login (w w' : World) (t : string) :
  step w w' ->
  hospital_token (client w') = Some t ->
  hospital_token (client w) = Some t \/
  (exists before after data,
     access_token data = t /\
     inflight w = before ++ post_of_login false :: after /\
     w' = exec (login_resume (Resolved data)) (answered before after w)) \/
  (exists before after data,
     access_token data = t /\
     inflight w = before ++ post_of_login true :: after /\
     w' = exec (register_login_resume (Resolved data)) (answered before after w)).
Proof.
  intros Hstep Hnew.
  destruct Hstep as
    [ w path | w target earlier _ | w email password | w userData | w | w | w
    | w u | w before after stored reply Hp | w before after reply Hp
    | w before after userData reply Hp | w before after reply Hp
    | w before after reply Hp | w before after reply Hp ].
  - left. exact Hnew.
  - left. rewrite boot_store in Hnew. exact Hnew.
  - left. exact Hnew.
  - left. exact Hnew.
  - discriminate Hnew.
  - left. exact Hnew.
  - left. exact Hnew.
  - left. exact Hnew.
  - destruct reply; [left; exact Hnew|discriminate Hnew].
  - destruct reply as [data|error]; cbn in Hnew.
    + right. left. exists before, after, data.
      split; [congruence|]. split; [exact Hp|reflexivity].
    + left. exact (addResponseInterceptor_store _ _ _ Hnew).
  - destruct reply; cbn in Hnew; [left; exact Hnew|].
    left. exact (addResponseInterceptor_store _ _ _ Hnew).
  - destruct reply as [data|error]; cbn in Hnew.
    + right. right. exists before, after, data.
      split; [congruence|]. split; [exact Hp|reflexivity].
    + left. exact (addResponseInterceptor_store _ _ _ Hnew).
  - destruct reply; cbn in Hnew; [left; exact Hnew|].
    left. exact (addResponseInterceptor_store _ _ _ Hnew).
  - destruct reply; cbn in Hnew; [left; exact Hnew|].
    left. exact (addResponseInterceptor_store _ _ _ Hnew).
Qed.

Lemma stored_only_by_login_witness :
  hospital_token (client Scenario.login_sent) = Some "tok" \/
  (exists before after data,
     access_token data = "tok" /\
     inflight Scenario.login_sent = before ++ post_of_login false :: after /\
     Scenario.logged_in
     = exec (login_resume (Resolved data))
         (answered before after Scenario.login_sent)) \/
  (exists before after data,
     access_token data = "tok" /\
     inflight Scenario.login_sent = before ++ post_of_login true :: after /\
     Scenario.logged_in
     = exec (register_login_resume (Resolved data))
         (answered before after Scenario.login_sent)).
Proof.
  apply (stored_only_by_login Scenario.login_sent Scenario.logged_in "tok").
  - apply (settle_login Scenario.login_sent [] []). reflexivity.
  - reflexivity.
Defined.

(** ** [trim] *)

Lemma trimStart_split (s : jsstring) :
  exists blanks, s = blanks ++ trimStart s /\ forallb is_whitespace blanks = true.
Proof.
  induction s as [|c s IH]; [exists []; split; reflexivity|].
  cbn. destruct (is_whitespace c) eqn:Hc.
  - destruct IH as (blanks & Hs & Hb). exists (c :: blanks). split.
    + cbn. congruence.
    + cbn. rewrite Hc. exact Hb.
  - exists []. split; reflexivity.
Qed.

Lemma trimStart_head (s : jsstring) c :
  head (trimStart s) = Some c -> is_whitespace c = false.
Proof.
  induction s as [|c' s IH]; [discriminate|].
  cbn. destruct (is_whitespace c') eqn:Hc; [exact IH|].
  cbn. intros [= <-]. exact Hc.
Qed.

Lemma trimStart_clean (s : jsstring) :
  (forall c, head s = Some c -> is_whitespace c = false) -> trimStart s = s.
Proof.
  destruct s as [|c s]; [reflexivity|].
  intros H. cbn. rewrite (H c eq_refl). reflexivity.
Qed.

Lemma forallb_rev' {A} (f : A -> bool) (l : list A) :
  forallb f (rev l) = forallb f l.
Proof.
  induction l as [|x l IH]; [reflexivity|].
  cbn. rewrite forallb_app, IH. cbn. rewrite andb_true_r. apply andb_comm.
Qed.

Lemma head_app_l {A} (a b : list A) x : head a = Some x -> head (a ++ b) = Some x.
Proof. destruct a; [discriminate|]. cbn. auto. Qed.

(** What [trim] cuts off, in the terms of the section. *)
Lemma trim_split (s : jsstring) :
  exists l r,
    s = l ++ trim s ++ r /\
    forallb is_whitespace l = true /\ forallb is_whitespace r = true /\
    (forall c, head (trim s) = Some c -> is_whitespace c = false) /\
    (forall c, head (rev (trim s)) = Some c -> is_whitespace c = false).
Proof.
  unfold trim.
  destruct (trimStart_split s) as (l & Hs & Hl).
  destruct (trimStart_split (rev (trimStart s))) as (r & Ht & Hr).
  set (t := trimStart s) in *. set (u := trimStart (rev t)) in *.
  assert (Ht' : t = rev u ++ rev r).
  { rewrite <- rev_app_distr, <- Ht. symmetry. apply rev_involutive. }
  exists l, (rev r). repeat split.
  - rewrite <- Ht'. exact Hs.
  - exact Hl.
  - rewrite forallb_rev'. exact Hr.
  - intros c Hc. apply (trimStart_head s). fold t. rewrite Ht'.
    apply head_app_l. exact Hc.
  - intros c. rewrite rev_involutive. apply trimStart_head.
Qed.

(** [trim] removes white space from both ends and nothing else:
    the string is its trimmed form between two runs of white space, and
    the trimmed form neither begins nor ends with white space. *)
Theorem trim_spec (s : jsstring) :
  exists l r,
    s = l ++ trim s ++ r /\
    forallb is_whitespace l = true /\ forallb is_whitespace r = true /\
    (forall c, head (trim s) = Some c -> is_whitespace c = false) /\
    (forall c, head (rev (trim s)) = Some c -> is_whitespace c = false).
Proof. apply trim_split. Qed.

(** The trimmed form is empty exactly when the string consists of
    white space only (the empty string included): this is what the form
    calls a missing name, email, CRM or specialty. *)
Theorem trim_blank_iff (s : jsstring) :
  trim s = [] <-> forallb is_whitespace s = true.
Proof.
  destruct (trim_split s) as (l & r & Hs & Hl & Hr & _).
  split.
  - intros Hnil. rewrite Hs, Hnil, !forallb_app, Hl, Hr. reflexivity.
  - intros Hall.
    destruct (trim s) as [|c t] eqn:Htrim; [reflexivity|].
    destruct (trim_split s) as (l' & r' & Hs' & _ & _ & Hhead & _).
    rewrite Htrim in Hs', Hhead.
    rewrite Hs', forallb_app in Hall. cbn in Hall.
    rewrite (Hhead c eq_refl) in Hall. cbn in Hall.
    rewrite andb_false_r in Hall. discriminate.
Qed.

(** Trimming twice is trimming once. *)
Lemma trim_idempotent (s : jsstring) : trim (trim s) = trim s.
Proof.
  destruct (trim_split s) as (_ & _ & _ & _ & _ & Hstart & Hend).
  unfold trim at 1.
  rewrite (trimStart_clean (trim s) Hstart).
  rewrite (trimStart_clean (rev (trim s)) Hend).
  apply rev_involutive.
Qed.

(** ** The matcher and the email pattern *)

Import RegExp.

Lemma denotes_nil_nullable r s : denotes r s -> s = [] -> nullable r = true.
Proof.
  induction 1 as [|p c Hp|r1 r2 s1 s2 _ IH1 _ IH2|r1 r2 s _ IH|r1 r2 s _ IH
                 |r|r s1 s2 _ _ _ _]; intros Hnil; cbn; try reflexivity.
  - discriminate.
  - apply app_eq_nil in Hnil as [-> ->]. rewrite IH1, IH2; reflexivity.
  - rewrite IH by exact Hnil. reflexivity.
  - rewrite IH by exact Hnil. apply orb_true_r.
Qed.

Lemma nullable_denotes r : nullable r = true -> denotes r [].
Proof.
  induction r as [| |p|r1 IH1 r2 IH2|r1 IH1 r2 IH2|r IH]; cbn; intros H;
    try discriminate.
  - constructor.
  - apply andb_true_iff in H as [H1 H2].
    apply (denotes_Cat r1 r2 [] []); auto.
  - apply orb_true_iff in H as [H|H];
      [apply denotes_Alt_l|apply denotes_Alt_r]; auto.
  - constructor.
Qed.

Lemma denotes_Star_cons_inv r c s :
  denotes (Star r) (c :: s) ->
  exists s1 s2, s = s1 ++ s2 /\ denotes r (c :: s1) /\ denotes (Star r) s2.
Proof.
  remember (Star r) as r' eqn:Hr. remember (c :: s) as s' eqn:Hs.
  intros H. revert s Hs.
  induction H as [| | | | | |r0 s1 s2 H1 _ H2 IH2]; intros t Ht;
    try discriminate.
  injection Hr as ->.
  destruct s1 as [|c1 s1].
  - apply IH2; [reflexivity|exact Ht].
  - cbn in Ht. injection Ht as -> <-. eauto.
Qed.

Lemma denotes_Cat_inv r1 r2 s :
  denotes (Cat r1 r2) s ->
  exists s1 s2, s = s1 ++ s2 /\ denotes r1 s1 /\ denotes r2 s2.
Proof. inversion 1; subst; eauto. Qed.

Lemma denotes_Alt_inv r1 r2 s :
  denotes (Alt r1 r2) s -> denotes r1 s \/ denotes r2 s.
Proof. inversion 1; subst; auto. Qed.

Lemma denotes_Class_inv p s :
  denotes (Class p) s -> exists c, s = [c] /\ p c = true.
Proof. inversion 1; subst; eauto. Qed.

Lemma denotes_Eps_inv s : denotes Eps s -> s = [].
Proof. inversion 1; reflexivity. Qed.

Lemma deriv_Cat_back r1 r2 c s :
  (forall s', denotes r1 (c :: s') -> denotes (deriv c r1) s') ->
  (forall s', denotes r2 (c :: s') -> denotes (deriv c r2) s') ->
  denotes (Cat r1 r2) (c :: s) ->
  denotes (Cat (deriv c r1) r2) s \/
  (nullable r1 = true /\ denotes (deriv c r2) s).
Proof.
  intros IH1 IH2 H.
  apply denotes_Cat_inv in H as (s1 & s2 & Hs & H1 & H2).
  destruct s1 as [|c1 s1]; cbn in Hs.
  - right. subst s2. split.
    + exact (denotes_nil_nullable r1 [] H1 eq_refl).
    + apply IH2. exact H2.
  - left. injection Hs as <- ->.
    apply denotes_Cat; [apply IH1; exact H1|exact H2].
Qed.

Lemma deriv_denotes r : forall c s, denotes (deriv c r) s <-> denotes r (c :: s).
Proof.
  induction r as [| |p|r1 IH1 r2 IH2|r1 IH1 r2 IH2|r IH]; intros c s; cbn.
  - split; inversion 1.
  - split; inversion 1.
  - destruct (p c) eqn:Hp; split; intros H.
    + apply denotes_Eps_inv in H as ->. constructor. exact Hp.
    + apply denotes_Class_inv in H as (c' & [= <- ->] & _). constructor.
    + inversion H.
    + apply denotes_Class_inv in H as (c' & [= <- ->] & Hp'). congruence.
  - assert (Hcat : denotes (Cat (deriv c r1) r2) s ->
                   denotes (Cat r1 r2) (c :: s)).
    { intros H. apply denotes_Cat_inv in H as (s1 & s2 & -> & H1 & H2).
      apply IH1 in H1. exact (denotes_Cat r1 r2 (c :: s1) s2 H1 H2). }
    assert (Hback := deriv_Cat_back r1 r2 c s
                       (fun s' => proj2 (IH1 c s')) (fun s' => proj2 (IH2 c s'))).
    destruct (nullable r1) eqn:Hn; split; intros H.
    + apply denotes_Alt_inv in H as [H|H]; [auto|].
      apply (denotes_Cat r1 r2 [] (c :: s)); [apply nullable_denotes; exact Hn|].
      apply IH2. exact H.
    + destruct (Hback H) as [H'|[_ H']];
        [apply denotes_Alt_l|apply denotes_Alt_r]; exact H'.
    + auto.
    + destruct (Hback H) as [H'|[H' _]]; [exact H'|discriminate].
  - split; intros H; apply denotes_Alt_inv in H as [H|H].
    + apply denotes_Alt_l. apply IH1. exact H.
    + apply denotes_Alt_r. apply IH2. exact H.
    + apply denotes_Alt_l. apply IH1. exact H.
    + apply denotes_Alt_r. apply IH2. exact H.
  - split; intros H.
    + apply denotes_Cat_inv in H as (s1 & s2 & -> & H1 & H2).
      apply IH in H1. exact (denotes_Star_cons r (c :: s1) s2 H1 H2).
    + apply denotes_Star_cons_inv in H as (s1 & s2 & -> & H1 & H2).
      apply denotes_Cat; [apply IH; exact H1|exact H2].
Qed.

(** The matcher is right: [matches r s] says exactly whether [s] is
    one of the strings [r] stands for. *)
Theorem matches_denotes (r : regex) (s : jsstring) :
  matches r s = true <-> denotes r s.
Proof.
  revert r. induction s as [|c s IH]; intros r; cbn.
  - split; [apply nullable_denotes|].
    intros H. exact (denotes_nil_nullable r [] H eq_refl).
  - rewrite IH. apply deriv_denotes.
Qed.

Lemma denotes_Anything (s : jsstring) : denotes Anything s.
Proof.
  induction s as [|c s IH]; [constructor|].
  apply (denotes_Star_cons _ [c] s); [constructor; reflexivity|exact IH].
Qed.

Lemma denotes_Chr c s : denotes (Chr c) s <-> s = [c].
Proof.
  split.
  - intros H. apply denotes_Class_inv in H as (c' & -> & Hc).
    apply N.eqb_eq in Hc. congruence.
  - intros ->. constructor. apply N.eqb_refl.
Qed.

Lemma denotes_Star_Class p s :
  denotes (Star (Class p)) s <-> forallb p s = true.
Proof.
  split.
  - remember (Star (Class p)) as r eqn:Hr. intros H.
    induction H as [| | | | | |r0 s1 s2 H1 _ _ IH2]; try discriminate.
    + reflexivity.
    + injection Hr as ->.
      apply denotes_Class_inv in H1 as (c & -> & Hc).
      cbn. rewrite Hc. apply IH2. reflexivity.
  - induction s as [|c s IH]; [constructor|].
    cbn. intros H. apply andb_true_iff in H as [Hc Hs].
    apply (denotes_Star_cons _ [c] s); [constructor; exact Hc|auto].
Qed.

Lemma denotes_Plus_NotSpace s : denotes (Plus NotSpace) s <-> solid s.
Proof.
  unfold Plus, solid. split.
  - intros H. apply denotes_Cat_inv in H as (s1 & s2 & -> & H1 & H2).
    apply denotes_Class_inv in H1 as (c & -> & Hc).
    apply denotes_Star_Class in H2.
    split; [discriminate|]. cbn. rewrite Hc. exact H2.
  - intros [Hne Hall]. destruct s as [|c s]; [congruence|].
    cbn in Hall. apply andb_true_iff in Hall as [Hc Hs].
    apply (denotes_Cat _ _ [c] s); [constructor; exact Hc|].
    apply denotes_Star_Class. exact Hs.
Qed.

(** X21. What the form takes for an email address: a string that holds,
    somewhere, a run without white space, an at sign, a second such run,
    a full stop and a third such run. Anything may stand before and
    after. *)
Theorem email_pattern_spec (s : jsstring) :
  test RegisterPage.email_pattern s = true <->
  exists before name host tail after,
    s = before ++ name ++ [64%N] ++ host ++ [46%N] ++ tail ++ after /\
    solid name /\ solid host /\ solid tail.
Proof.
  unfold test. rewrite matches_denotes. unfold email_pattern. split.
  - intros H.
    apply denotes_Cat_inv in H as (before & s1 & -> & _ & H).
    apply denotes_Cat_inv in H as (s2 & after & -> & H & _).
    apply denotes_Cat_inv in H as (name & s3 & -> & Hname & H).
    apply denotes_Cat_inv in H as (at_ & s4 & -> & Hat & H).
    apply denotes_Cat_inv in H as (host & s5 & -> & Hhost & H).
    apply denotes_Cat_inv in H as (dot & tail & -> & Hdot & Htail).
    apply denotes_Chr in Hat as ->. apply denotes_Chr in Hdot as ->.
    exists before, name, host, tail, after.
    rewrite denotes_Plus_NotSpace in Hname, Hhost, Htail.
    split; [rewrite <- !app_assoc; reflexivity|].
    split; [exact Hname|]. split; [exact Hhost|exact Htail].
  - intros (before & name & host & tail & after & -> & Hname & Hhost & Htail).
    rewrite <- denotes_Plus_NotSpace in Hname, Hhost, Htail.
    apply denotes_Cat; [apply denotes_Anything|].
    replace (name ++ [64%N] ++ host ++ [46%N] ++ tail ++ after)
      with ((name ++ [64%N] ++ host ++ [46%N] ++ tail) ++ after)
      by (rewrite <- !app_assoc; reflexivity).
    apply denotes_Cat; [|apply denotes_Anything].
    apply denotes_Cat; [exact Hname|].
    apply denotes_Cat; [apply denotes_Chr; reflexivity|].
    apply denotes_Cat; [exact Hhost|].
    apply denotes_Cat; [apply denotes_Chr; reflexivity|exact Htail].
Qed.

(** ** The registration form, accepted and refused *)

Lemma errors_of_nome (d : FormData) :
  trim (nome d) = [] ->
  errors_of d !! "nome" = Some (Some "Nome é obrigatório").
Proof.
  intros Hblank. unfold errors_of.
  rewrite check_doctor_other, check_confirm_password_other,
    check_password_other, check_email_other by discriminate.
  unfold check_nome. rewrite (blank_not_truthy _ Hblank).
  apply lookup_insert_eq.
Qed.

Lemma errors_of_email (d : FormData) :
  trim (email d) = [] \/ test email_pattern (email d) = false ->
  exists message, errors_of d !! "email" = Some (Some message).
Proof.
  intros Hbad. unfold errors_of.
  rewrite check_doctor_other, check_confirm_password_other,
    check_password_other by discriminate.
  unfold check_email.
  destruct (negb (truthy (trim (email d)))) eqn:Hblank.
  - eexists. apply lookup_insert_eq.
  - destruct Hbad as [Hb|Hpattern].
    + rewrite (blank_not_truthy _ Hb) in Hblank. discriminate.
    + rewrite Hpattern. cbn. eexists. apply lookup_insert_eq.
Qed.

(** X22. A required field counts as missing exactly when it holds white
    space only, the empty string included: this is when the name and the
    email get their "obrigatório" message, and, for a doctor, the CRM and
    the specialty theirs. *)
Theorem blank_fields_are_missing (d : FormData) :
  (errors_of d !! "nome" = Some (Some "Nome é obrigatório") <->
   forallb is_whitespace (nome d) = true) /\
  (errors_of d !! "email" = Some (Some "Email é obrigatório") <->
   forallb is_whitespace (email d) = true) /\
  (role d = js "doctor" ->
   (errors_of d !! "crm" = Some (Some "CRM é obrigatório para médicos") <->
    forallb is_whitespace (crm d) = true) /\
   (errors_of d !! "especialidade"
    = Some (Some "Especialidade é obrigatória para médicos") <->
    forallb is_whitespace (especialidade d) = true)).
Proof.
  split; [|split].
  - rewrite <- trim_blank_iff. split; [|apply errors_of_nome].
    unfold errors_of.
    rewrite check_doctor_other, check_confirm_password_other,
      check_password_other, check_email_other by discriminate.
    unfold check_nome. destruct (trim (nome d)); [reflexivity|discriminate].
  - rewrite <- trim_blank_iff. unfold errors_of.
    rewrite check_doctor_other, check_confirm_password_other,
      check_password_other by discriminate.
    unfold check_email. destruct (trim (email d)) as [|c t]; cbn [truthy negb].
    + rewrite lookup_insert_eq. split; reflexivity.
    + destruct (negb (test email_pattern (email d))).
      * rewrite lookup_insert_eq. split; discriminate.
      * rewrite check_nome_other by discriminate.
        rewrite lookup_empty. split; discriminate.
  - intros Hrole. rewrite <- !trim_blank_iff.
    split; (split; [|first [apply errors_of_crm | apply errors_of_especialidade];
                     exact Hrole]).
    + unfold errors_of, check_doctor, jsstring_eqb.
      rewrite bool_decide_eq_true_2 by exact Hrole.
      destruct (trim (crm d)) as [|c t]; [reflexivity|]. cbn [truthy negb].
      destruct (negb (truthy (trim (especialidade d))));
        rewrite ?lookup_insert_ne by discriminate;
        rewrite check_confirm_password_other, check_password_other,
          check_email_other, check_nome_other by discriminate;
        rewrite lookup_empty; discriminate.
    + unfold errors_of, check_doctor, jsstring_eqb.
      rewrite bool_decide_eq_true_2 by exact Hrole.
      destruct (trim (especialidade d)) as [|c t]; [reflexivity|].
      cbn [truthy negb].
      destruct (negb (truthy (trim (crm d))));
        rewrite ?lookup_insert_ne by discriminate;
        rewrite check_confirm_password_other, check_password_other,
          check_email_other, check_nome_other by discriminate;
        rewrite lookup_empty; discriminate.
Qed.

Lemma no_entry (d : FormData) k x :
  size (errors_of d) = 0 -> errors_of d !! k = Some x -> False.
Proof.
  intros Hz Hk. pose proof (invalid_by_entry d k x Hk) as Hnz.
  rewrite Hz in Hnz. discriminate.
Qed.

(** X23. The forms [validateForm] lets through are exactly these: name
    and email not blank, the email of the shape of the pattern, a
    password of at least six code units, a confirmation equal to it,
    and, for the role doctor, CRM and specialty not blank. *)
Theorem validateForm_accepts_iff (d : FormData) :
  size (errors_of d) = 0 <->
  trim (nome d) <> [] /\
  trim (email d) <> [] /\
  test email_pattern (email d) = true /\
  6 <= length (password d) /\
  confirm_password d = password d /\
  (role d = js "doctor" ->
   trim (crm d) <> [] /\ trim (especialidade d) <> []).
Proof.
  split.
  - intros Hz.
    split; [|split; [|split; [|split; [|split; [|intros Hrole; split]]]]].
    + intros Hb. exact (no_entry d _ _ Hz (errors_of_nome d Hb)).
    + intros Hb. destruct (errors_of_email d (or_introl Hb)) as [m Hm].
      exact (no_entry d _ _ Hz Hm).
    + destruct (test email_pattern (email d)) eqn:Ht; [reflexivity|].
      destruct (errors_of_email d (or_intror Ht)) as [m Hm].
      destruct (no_entry d _ _ Hz Hm).
    + destruct (Nat.le_gt_cases 6 (length (password d))) as [Hle|Hlt];
        [exact Hle|].
      destruct (errors_of_password d Hlt) as [m Hm].
      destruct (no_entry d _ _ Hz Hm).
    + destruct (decide (password d = confirm_password d)) as [Heq|Hne];
        [congruence|].
      destruct (errors_of_confirm_password d Hne) as [m Hm].
      destruct (no_entry d _ _ Hz Hm).
    + intros Hb. exact (no_entry d _ _ Hz (errors_of_crm d Hrole Hb)).
    + intros Hb. exact (no_entry d _ _ Hz (errors_of_especialidade d Hrole Hb)).
  - intros (Hnome & Hemail & Hpattern & Hlen & Hconfirm & Hdoctor).
    assert (Hclean : errors_of d = ∅); [|rewrite Hclean; apply map_size_empty].
    unfold errors_of, check_nome, check_email, check_password,
      check_confirm_password, check_doctor.
    destruct (trim (nome d)) as [|? ?]; [congruence|]. cbn [truthy negb].
    destruct (trim (email d)) as [|? ?]; [congruence|]. cbn [truthy negb].
    rewrite Hpattern. cbn [negb].
    rewrite Hconfirm.
    destruct (password d) as [|first rest] eqn:Hpw; [cbn in Hlen; lia|].
    cbn [truthy negb].
    destruct (Nat.ltb_spec (length (first :: rest)) 6) as [Hlt|_]; [lia|].
    unfold jsstring_eqb.
    rewrite (bool_decide_eq_true_2 (first :: rest = first :: rest)) by reflexivity.
    cbn [negb].
    destruct (bool_decide_reflect (role d = js "doctor"))
      as [Hrole|_]; [|reflexivity].
    destruct (Hdoctor Hrole) as [Hcrm Hesp].
    destruct (trim (crm d)) as [|? ?]; [congruence|].
    destruct (trim (especialidade d)) as [|? ?]; [congruence|].
    reflexivity.
Qed.

Lemma trim_not_blank_truthy (s : jsstring) : trim s <> [] -> truthy s = true.
Proof. destruct s; [intros H; destruct H|]; reflexivity. Qed.

(** X24. The submit button is never disabled for a form that would pass
    validation: what [validateForm] accepts, [isFormValid] accepts. *)
Theorem valid_form_is_submittable (p : Component) :
  size (errors_of (formData p)) = 0 -> isFormValid p = true.
Proof.
  intros Hz. apply validateForm_accepts_iff in Hz
    as (Hnome & Hemail & _ & Hlen & Hconfirm & Hdoctor).
  unfold isFormValid.
  rewrite (trim_not_blank_truthy _ Hnome), (trim_not_blank_truthy _ Hemail).
  rewrite Hconfirm.
  destruct (password (formData p)) as [|c pw]; [cbn in Hlen; lia|].
  cbn [truthy andb].
  unfold jsstring_eqb.
  destruct (bool_decide_reflect (role (formData p) = js "doctor"))
    as [Hrole|_]; [|reflexivity].
  destruct (Hdoctor Hrole) as [Hcrm Hesp].
  rewrite (trim_not_blank_truthy _ Hcrm), (trim_not_blank_truthy _ Hesp).
  reflexivity.
Qed.

Lemma valid_form_is_submittable_witness :
  isFormValid (mkComponent Scenario.nurse false ∅) = true.
Proof.
  apply (valid_form_is_submittable (mkComponent Scenario.nurse false ∅)).
  vm_compute. reflexivity.
Defined.

(** ** Submitting and editing the registration form *)

(** X25. A form that passes validation, submitted while no submission is
    under way, calls [register] with the form data as they are: the
    component is marked as submitting with no errors, the registration
    request is the one request sent, and the session is loading. *)
Theorem handleSubmit_valid (p : Component) (w : World) :
  isSubmitting p = false ->
  size (errors_of (formData p)) = 0 ->
  handleSubmit p w
  = (mkComponent (formData p) true ∅, exec (register_start (formData p)) w) /\
  map url (sent (client (snd (handleSubmit p w))))
  = "/auth/register" :: map url (sent (client w)) /\
  inflight (snd (handleSubmit p w)) = post_of_register (formData p) :: inflight w /\
  loading (session (snd (handleSubmit p w))) = VBool true.
Proof.
  intros Hidle Hz. unfold handleSubmit. rewrite Hidle. cbn.
  rewrite Hz. cbn. rewrite (map_size_empty_inv _ Hz). repeat split.
Qed.

Lemma handleSubmit_valid_witness :
  inflight
    (snd (handleSubmit (mkComponent Scenario.nurse false ∅) Scenario.at_register))
  = [post_of_register Scenario.nurse].
Proof.
  apply (handleSubmit_valid (mkComponent Scenario.nurse false ∅)
           Scenario.at_register).
  - reflexivity.
  - vm_compute. reflexivity.
Defined.

(** X26. Submitting again at once changes nothing: whether the first
    submission was refused or is under way, a second [handleSubmit] on
    what the first left returns the same component and the same world,
    so no second request is sent. *)
Theorem handleSubmit_twice (p : Component) (w : World) :
  handleSubmit (fst (handleSubmit p w)) (snd (handleSubmit p w))
  = handleSubmit p w.
Proof.
  unfold handleSubmit at 2 3 4.
  destruct (isSubmitting p) eqn:Hbusy.
  - cbn. unfold handleSubmit. rewrite Hbusy. reflexivity.
  - cbn. destruct (size (errors_of (formData p)) =? 0)%nat eqn:Hvalid; cbn.
    + reflexivity.
    + unfold handleSubmit. cbn. rewrite Hbusy, Hvalid. reflexivity.
Qed.

Lemma field_name_injective (f g : Field) : name_of f = name_of g -> f = g.
Proof. destruct f, g; (reflexivity || discriminate). Qed.

(** X27. Editing a field changes that field and no other, leaves the
    submission flag alone, keeps the messages of the other fields, and
    leaves no message on the edited field. *)
Theorem handleChange_one_field (f : Field) (v : jsstring) (p : Component) :
  field f (formData (handleChange f v p)) = v /\
  (forall g, g <> f ->
     field g (formData (handleChange f v p)) = field g (formData p) /\
     validationErrors (handleChange f v p) !! name_of g
     = validationErrors p !! name_of g) /\
  isSubmitting (handleChange f v p) = isSubmitting p /\
  (forall message,
     validationErrors (handleChange f v p) !! name_of f = Some (Some message) ->
     truthy_str message = false).
Proof.
  split; [destruct f; reflexivity|].
  split; [|split; [reflexivity|]].
  - intros g Hg. split; [destruct f, g; (reflexivity || congruence)|].
    assert (Hname : name_of f <> name_of g).
    { intros H. apply Hg. symmetry. exact (field_name_injective f g H). }
    cbn. destruct (validationErrors p !! name_of f) as [[m|]|]; try reflexivity.
    destruct (truthy_str m); [|reflexivity].
    apply lookup_insert_ne. exact Hname.
  - intros message. cbn.
    destruct (validationErrors p !! name_of f) as [[m|]|] eqn:Hold.
    + destruct (truthy_str m) eqn:Hm.
      * rewrite lookup_insert_eq. discriminate.
      * rewrite Hold. intros [= <-]. exact Hm.
    + rewrite Hold. discriminate.
    + rewrite Hold. discriminate.
Qed.

(** ** The login form *)

(** X28. The login form checks nothing: submitted while no submission is
    under way, it sends one request to [/auth/login] whose body is the
    two fields exactly as they stand, empty or not, marks the component
    as submitting and the session as loading. Submitted again before
    the reply, it does nothing more; and the [finally] of the handler
    gives back the form as it was, ready to be submitted again. *)
Theorem login_form_submits_once (p : LoginPage.Component) (w : World) :
  (LoginPage.isSubmitting p = false ->
   sent (client (snd (LoginPage.handleSubmit p w)))
   = mkRequest authAPI "POST" "/auth/login"
       (addAuthInterceptor (client w) (authAPI_Authorization (client w)))
       (login_data (LoginPage.email (LoginPage.formData p))
          (LoginPage.password (LoginPage.formData p)))
       :: sent (client w) /\
   inflight (snd (LoginPage.handleSubmit p w)) = post_of_login false :: inflight w /\
   loading (session (snd (LoginPage.handleSubmit p w))) = VBool true /\
   LoginPage.isSubmitting (fst (LoginPage.handleSubmit p w)) = true /\
   LoginPage.handleSubmit_finally (fst (LoginPage.handleSubmit p w)) = p) /\
  LoginPage.handleSubmit (fst (LoginPage.handleSubmit p w))
    (snd (LoginPage.handleSubmit p w))
  = LoginPage.handleSubmit p w.
Proof.
  unfold LoginPage.handleSubmit.
  destruct (LoginPage.isSubmitting p) eqn:Hbusy; cbn.
  - rewrite Hbusy. split; [discriminate|reflexivity].
  - split; [intros _|reflexivity]. repeat split.
    destruct p as [d busy]. cbn in Hbusy. subst busy. reflexivity.
Qed.

(** X29. [register] posts the object it was given as it is (the
    confirmation of the password included), and the login that follows
    an accepted registration sends the email and the password of that
    same object, whatever the login is then answered. *)
Theorem register_sends_what_it_was_given (w : World) (userData : FormData)
  (login_reply : Reply LoginData) :
  map data (sent (client (exec (register userData (Resolved tt) login_reply) w)))
  = login_data (email userData) (password userData)
      :: register_data userData :: map data (sent (client w)).
Proof.
  destruct login_reply as [d|error]; cbn; [reflexivity|].
  rewrite addResponseInterceptor_sent. reflexivity.
Qed.
